(** * bgpls: the per-neighbor BGP-LS finite state machine

    A shallow embedding of [neighbor.go]'s FSM (type [standardFSM]): the
    OPEN validator [validateOpen], the transition guard [transition], the
    per-state handlers and the driver [loop], followed by the properties
    of the specification that concern them.

    Conventions.
    - Go's fixed-width integers are [Z]; the only conversion the code
      performs, [uint16(...)], is written out as a reduction modulo 2^16.
    - [time.Duration] is an [int64] count of nanoseconds, here a [Z].
    - A goroutine blocked in a [select] is resumed by its environment
      (peer, timers, the application calling [shut], the event consumer).
      The environment is an explicit schedule: a list of [choice]s, one
      consumed at each [select] and at each [conn.Write].
    - What the driver does to the outside world is recorded, in order, in
      a list of [effect]s. *)

From Stdlib Require Import ZArith List String Bool Lia Permutation.
Import ListNotations.
Open Scope Z_scope.

(** ** Durations (package [time]) *)

Definition Duration := Z.

Definition Second : Duration := 1000000000.

(** [d.Truncate(m)]: [d] rounded toward zero to a multiple of [m]; [d]
    itself when [m <= 0].  Go's [%] is the truncated remainder. *)
Definition Truncate (d m : Duration) : Duration :=
  if m <=? 0 then d else d - Z.rem d m.

(** [uint16(x)] of an unsigned value. *)
Definition uint16 (x : Z) : Z := x mod 65536.

(** [binary.BigEndian.PutUint16] into a fresh two-byte slice. *)
Definition PutUint16 (v : Z) : list Z := [(v / 256) mod 256; v mod 256].

(** ** States *)

(** [FSMState] with its seven declared constants. *)
Inductive FSMState : Type :=
| DisabledState
| IdleState
| ConnectState
| ActiveState
| OpenSentState
| OpenConfirmState
| EstablishedState.

Definition FSMState_eqb (a b : FSMState) : bool :=
  match a, b with
  | DisabledState, DisabledState
  | IdleState, IdleState
  | ConnectState, ConnectState
  | ActiveState, ActiveState
  | OpenSentState, OpenSentState
  | OpenConfirmState, OpenConfirmState
  | EstablishedState, EstablishedState => true
  | _, _ => false
  end.

Definition connectRetryTime : Duration := Second * 5.

(** ** Messages *)

(** NOTIFICATION error codes and subcodes referred to by the FSM.  They are
    constants of the message codec; the FSM only passes them along. *)
Inductive NotifErrCode : Type :=
| NotifErrCodeMessageHeader
| NotifErrCodeOpenMessage
| NotifErrCodeHoldTimerExpired
| NotifErrCodeCease.

Inductive NotifErrSubcode : Type :=
| NotifErrSubcodeZero                      (* the literal [0] *)
| NotifErrSubcodeBadType
| NotifErrSubcodeUnsupportedVersionNumber
| NotifErrSubcodeBadPeerAS
| NotifErrSubcodeBadBgpID
| NotifErrSubcodeUnsupportedOptParam
| NotifErrSubcodeUnacceptableHoldTime
| NotifErrSubcodeUnsupportedCapability.

(** Modelled from the spec: the constants [asTrans], [BgpLsAFI],
    [BgpLsSAFI] and [OpenMessageType] are declared outside [neighbor.go];
    the glossary gives AS_TRANS = 23456 and the BGP-LS AFI/SAFI
    16388/71, section 6 gives OPEN(1). *)
Definition asTrans : Z := 23456.
Definition BgpLsAFI : Z := 16388.
Definition BgpLsSAFI : Z := 71.
Definition OpenMessageType : Z := 1.

(** Capabilities met by the type switch of [validateOpen]. *)
Inductive capability : Type :=
| capFourOctetAs (asn : Z)
| capMultiproto (afi safi : Z)
| capUnknown (code : Z) (value : list Z).

(** Optional parameters of an OPEN: the capability parameter, and every
    other parameter type (for which the type assertion to a capability
    parameter fails). *)
Inductive optParam : Type :=
| capabilityOptParam (caps : list capability)
| otherOptParam (paramType : Z) (value : list Z).

Module openMessage.
Record t : Type := mk {
  version : Z;                (* uint8 *)
  asn : Z;                    (* uint16 *)
  holdTime : Z;               (* uint16, seconds *)
  bgpID : Z;                  (* uint32 *)
  optParams : list optParam
}.
End openMessage.

Record NotificationMessage : Type := {
  Code : NotifErrCode;
  Subcode : NotifErrSubcode;
  Data : list Z
}.

Inductive Message : Type :=
| MsgOpen (m : openMessage.t)
| MsgKeepAlive
| MsgUpdate (body : list Z)
| MsgNotification (m : NotificationMessage).

(** ** Errors *)

(** [errWithNotification]: an error carrying a NOTIFICATION payload.  A
    [data] field left unset is the nil slice, here [[]]. *)
Record errWithNotification : Type := {
  err_error : string;
  code : NotifErrCode;
  subcode : NotifErrSubcode;
  data : list Z
}.

(** Go's [error] values as the FSM distinguishes them: the type assertion
    to [errWithNotification] succeeds or not. *)
Inductive error : Type :=
| ErrWithNotification (e : errWithNotification)
| ErrPlain (text : string).

(** A call that returns normally or panics. *)
Inductive ret (A : Type) : Type :=
| Return (a : A)
| Panic (text : string).
Arguments Return {A} a.
Arguments Panic {A} text.

(** ** Configuration and FSM record *)

Definition IP := list Z.

Record NeighborConfig : Type := {
  Address : IP;
  ASN : Z;                      (* uint32 *)
  HoldTime : Duration
}.

(** The fields of [standardFSM] that carry data.  Channels, timers, the
    connection and the lock appear through [choice]s and [effect]s. *)
Record standardFSM : Type := {
  neighbor : NeighborConfig;    (* f.neighbor.config() *)
  localASN : Z;
  s : FSMState;
  keepAliveTime : Duration;
  holdTime : Duration
}.

Definition set_s (f : standardFSM) (st : FSMState) : standardFSM :=
  {| neighbor := neighbor f; localASN := localASN f; s := st;
     keepAliveTime := keepAliveTime f; holdTime := holdTime f |}.

Definition set_hold (f : standardFSM) (h k : Duration) : standardFSM :=
  {| neighbor := neighbor f; localASN := localASN f; s := s f;
     keepAliveTime := k; holdTime := h |}.

(** [newFSM], up to the start of the driver goroutine. *)
Definition newFSM (config : NeighborConfig) (localASN : Z) : standardFSM :=
  {| neighbor := config;
     localASN := localASN;
     s := IdleState;
     keepAliveTime := Truncate (Z.quot (HoldTime config) 3) Second;
     holdTime := HoldTime config |}.

(** ** The message codec, an external collaborator

    The serializers live outside [neighbor.go]; each returns bytes or an
    error.  [messageTypeString] is [m.MessageType()] as printed. *)
Class Codec : Type := {
  serializeOpen : openMessage.t -> list Z + error;
  serializeKeepAlive : list Z + error;
  serializeNotification : NotificationMessage -> list Z + error;
  serializeCapability : capability -> list Z + error;
  messageTypeString : Message -> string
}.

(** ** The transition guard *)

(** [transition]: [inl] the updated FSM on [nil], [inr] the error.  The
    [default] arm of the source covers values outside the seven constants,
    of which [FSMState] here has none. *)
Definition errInvalidStateTransition : error :=
  ErrPlain "invalid state transition".

Definition transition (f : standardFSM) (state : FSMState)
  : standardFSM + error :=
  match state with
  | DisabledState => inl (set_s f DisabledState)
  | IdleState => inl (set_s f IdleState)
  | ConnectState =>
      match s f with
      | IdleState | ConnectState | ActiveState => inl (set_s f ConnectState)
      | _ => inr errInvalidStateTransition
      end
  | ActiveState =>
      match s f with
      | ConnectState | ActiveState | OpenSentState =>
          inl (set_s f ActiveState)
      | _ => inr errInvalidStateTransition
      end
  | OpenSentState =>
      match s f with
      | ConnectState | ActiveState => inl (set_s f OpenSentState)
      | _ => inr errInvalidStateTransition
      end
  | OpenConfirmState =>
      match s f with
      | OpenSentState | OpenConfirmState => inl (set_s f OpenConfirmState)
      | _ => inr errInvalidStateTransition
      end
  | EstablishedState =>
      match s f with
      | OpenConfirmState | EstablishedState =>
          inl (set_s f EstablishedState)
      | _ => inr errInvalidStateTransition
      end
  end.

(** [transitionAndPanicOnErr]. *)
Definition transitionAndPanicOnErr (f : standardFSM) (state : FSMState)
  : ret standardFSM :=
  match transition f state with
  | inl f' => Return f'
  | inr _ => Panic "bug in FSM state transition"
  end.

(** ** The OPEN validator *)

Definition mkErr (text : string) (sc : NotifErrSubcode) (d : list Z)
  : errWithNotification :=
  {| err_error := text; code := NotifErrCodeOpenMessage;
     subcode := sc; data := d |}.

(** The inner loop of [validateOpen], over the capabilities of one
    parameter.  The flags are [(fourOctetAsFound, bgpLsAfFound)]; an early
    [return] is [inr]. *)
Fixpoint scanCaps (peerASN : Z) (caps : list capability)
  (flags : bool * bool) : (bool * bool) + errWithNotification :=
  match caps with
  | [] => inl flags
  | c :: rest =>
      match c with
      | capFourOctetAs a =>
          if negb (a =? peerASN)
          then inr (mkErr "bad peer AS" NotifErrSubcodeBadPeerAS [])
          else scanCaps peerASN rest (true, snd flags)
      | capMultiproto afi safi =>
          if (afi =? BgpLsAFI) && (safi =? BgpLsSAFI)
          then scanCaps peerASN rest (fst flags, true)
          else scanCaps peerASN rest flags
      | capUnknown _ _ => scanCaps peerASN rest flags
      end
  end.

(** The outer loop, over the optional parameters. *)
Fixpoint scanOptParams (peerASN : Z) (ps : list optParam)
  (flags : bool * bool) : (bool * bool) + errWithNotification :=
  match ps with
  | [] => inl flags
  | p :: rest =>
      match p with
      | otherOptParam _ _ =>
          inr (mkErr "non-capability optional parameter found"
                 NotifErrSubcodeUnsupportedOptParam [])
      | capabilityOptParam caps =>
          match scanCaps peerASN caps flags with
          | inr e => inr e
          | inl flags' => scanOptParams peerASN rest flags'
          end
      end
  end.

(** The hold-time reduction of [validateOpen].  The source compares
    [float64(msg.holdTime) < f.holdTime.Seconds()]; for a [uint16] on the
    left both sides are computed without rounding error that could change
    the order, so the test is [msg.holdTime * Second < f.holdTime] on
    integers. *)
Definition reduceHoldTime (f : standardFSM) (peerHold : Z) : standardFSM :=
  if peerHold * Second <? holdTime f then
    let h := peerHold * Second in
    set_hold f h (Truncate (Z.quot h 3) Second)
  else f.

(** [validateOpen]: the FSM as the call leaves it, and [nil] ([None]) or
    the error; the only panic is a failed serialization of the BGP-LS
    capability. *)
Definition validateOpen `{Codec} (f : standardFSM) (msg : openMessage.t)
  : standardFSM * ret (option errWithNotification) :=
  if negb (openMessage.version msg =? 4) then
    (f, Return (Some (mkErr "unsupported version number"
                        NotifErrSubcodeUnsupportedVersionNumber
                        (PutUint16 4))))
  else
    let fourOctetAS := openMessage.asn msg =? asTrans in
    if negb fourOctetAS
       && negb (openMessage.asn msg =? uint16 (ASN (neighbor f))) then
      (f, Return (Some (mkErr "bad peer AS" NotifErrSubcodeBadPeerAS [])))
    else if openMessage.holdTime msg <? 3 then
      (f, Return (Some (mkErr "hold time must be >=3"
                          NotifErrSubcodeUnacceptableHoldTime [])))
    else
      let f := reduceHoldTime f (openMessage.holdTime msg) in
      if openMessage.bgpID msg =? 0 then
        (f, Return (Some (mkErr "bgp ID cannot be 0"
                            NotifErrSubcodeBadBgpID [])))
      else
        match scanOptParams (ASN (neighbor f)) (openMessage.optParams msg)
                (false, false) with
        | inr e => (f, Return (Some e))
        | inl (fourOctetAsFound, bgpLsAfFound) =>
            if negb bgpLsAfFound then
              match serializeCapability
                      (capMultiproto BgpLsAFI BgpLsSAFI) with
              | inr _ =>
                  (f, Panic
                        "error serializing bgp-ls multiprotocol capability")
              | inl b =>
                  (f, Return (Some (mkErr "bgp-ls capability not found"
                                      NotifErrSubcodeUnsupportedCapability
                                      b)))
              end
            else if fourOctetAS && negb fourOctetAsFound then
              (f, Return (Some (mkErr
                "4-octet AS indicated in as field but not found in capabilities"
                NotifErrSubcodeBadPeerAS [])))
            else (f, Return None)
        end.

(** ** Constructing the OPEN we send *)

(** [net.IP.To4]: the 4-byte form of an address, [None] for nil. *)
Definition To4 (ip : IP) : option (list Z) :=
  match ip with
  | [a; b; c; d] => Some [a; b; c; d]
  | [0; 0; 0; 0; 0; 0; 0; 0; 0; 0; 255; 255; a; b; c; d] => Some [a; b; c; d]
  | _ => None
  end.

(** [binary.BigEndian.Uint32]. *)
Definition Uint32 (b : list Z) : Z :=
  fold_left (fun acc x => acc * 256 + x) b 0.

(** Modelled from the spec: [newOpenMessage] is defined outside
    [neighbor.go].  Section 4.4.2 and the round-trip test [TestOpenMessage]
    fix the message it builds: version 4, the ASN in two octets (AS_TRANS
    when it exceeds 65535), the hold time in whole seconds, the BGP
    identifier read big-endian from the 4-byte address, and one capability
    parameter holding the Four-Octet-AS and the BGP-LS multiprotocol
    capabilities.  When it fails is not specified; the model fails on an
    address without a 4-byte form. *)
Definition newOpenMessage (asn : Z) (hold : Duration) (bgpID : IP)
  : openMessage.t + error :=
  match To4 bgpID with
  | None => inr (ErrPlain "invalid bgp id")
  | Some b =>
      inl (openMessage.mk 4
             (if 65535 <? asn then asTrans else uint16 asn)
             (uint16 (Z.quot hold Second))
             (Uint32 b)
             [capabilityOptParam
                [capFourOctetAs asn; capMultiproto BgpLsAFI BgpLsSAFI]])
  end.

(** ** Events, effects and the environment *)

Inductive Event : Type :=
| EventNeighborErr (c : NeighborConfig) (e : error)
| EventNeighborStateTransition (c : NeighborConfig) (st : FSMState)
| EventNeighborHoldTimerExpired (c : NeighborConfig)
| EventNeighborNotificationReceived (c : NeighborConfig)
    (n : NotificationMessage)
| EventNeighborUpdateReceived (c : NeighborConfig) (body : list Z).

(** What the driver does, in program order. *)
Inductive effect : Type :=
| Emit (e : Event)                       (* f.events <- event *)
| DisableEcho                            (* f.disable <- nil *)
| ConnWrite (b : list Z)                 (* f.conn.Write(b) *)
| CleanupConn                            (* f.cleanupConn() *)
| HoldTimerReset (d : Duration)          (* f.holdTimer.Reset(d) *)
| HoldTimerDrain                         (* f.drainHoldTimer() *)
| KeepAliveTimerReset (d : Duration)
| ConnectRetryTimerReset (d : Duration)
| ConnectRetryTimerDrain                 (* Stop, and receive if fired *)
| Dial (address : IP)                    (* go dialer.DialContext(...) *)
| DialCancel                             (* cancel() *)
| ConnInstalled.                         (* f.conn = conn; go f.read() *)

(** What the environment decides: which alternative of a [select]
    proceeds, and how a write on the connection ends. *)
Inductive choice : Type :=
| Disable                                (* <-f.disable *)
| EventSent                              (* f.events <- event *)
| ConnectRetryTimerFired                 (* <-f.connectRetryTimer.C *)
| DialOk                                 (* <-connChan *)
| DialErr (text : string)                (* <-connectErrorChan *)
| ReaderErr (e : error)                  (* <-f.readerErr *)
| HoldTimerFired                         (* <-f.holdTimer.C *)
| KeepAliveTimerFired                    (* <-f.keepAliveTimer.C *)
| Recv (m : Message)                     (* <-f.msgCh *)
| WriteOk                                (* conn.Write returns nil *)
| WriteErr (text : string).              (* conn.Write returns an error *)

Record world : Type := {
  fsm : standardFSM;
  schedule : list choice;
  trace : list effect
}.

(** How a piece of driver code ends: it returns, it panics, or it is
    stuck: the schedule is exhausted (the goroutine stays blocked) or its
    next choice is not an alternative the code offers at that point. *)
Inductive outcome (A : Type) : Type :=
| Done (a : A) (w : world)
| Panicked (text : string) (w : world)
| Stuck (w : world).
Arguments Done {A} a w.
Arguments Panicked {A} text w.
Arguments Stuck {A} w.

Definition M (A : Type) : Type := world -> outcome A.

Definition mret {A} (a : A) : M A := fun w => Done a w.

Definition mbind {A B} (m : M A) (k : A -> M B) : M B :=
  fun w =>
    match m w with
    | Done a w' => k a w'
    | Panicked t w' => Panicked t w'
    | Stuck w' => Stuck w'
    end.

Declare Scope fsm_scope.
Delimit Scope fsm_scope with fsm.
Notation "x <- m ;; k" := (mbind m (fun x => k))
  (at level 61, m at next level, right associativity) : fsm_scope.
Notation "m ;; k" := (mbind m (fun _ => k))
  (at level 61, right associativity) : fsm_scope.
Open Scope fsm_scope.

Definition stuck {A} : M A := fun w => Stuck w.

Definition panic {A} (text : string) : M A := fun w => Panicked text w.

Definition getF : M standardFSM := fun w => Done (fsm w) w.

Definition putF (f : standardFSM) : M unit :=
  fun w => Done tt {| fsm := f; schedule := schedule w; trace := trace w |}.

Definition tell (e : effect) : M unit :=
  fun w =>
    Done tt {| fsm := fsm w; schedule := schedule w;
               trace := trace w ++ [e] |}.

(** The next decision of the environment. *)
Definition next : M choice :=
  fun w =>
    match schedule w with
    | [] => Stuck w
    | c :: rest =>
        Done c {| fsm := fsm w; schedule := rest; trace := trace w |}
    end.

(** The recurring [select] between a send on [f.events] and a receive on
    [f.disable]. *)
Definition emitOr {A} (ev : Event) (onDisable k : M A) : M A :=
  c <- next ;;
  match c with
  | EventSent => tell (Emit ev) ;; k
  | Disable => onDisable
  | _ => stuck
  end.

Definition errorText (e : error) : string :=
  match e with
  | ErrWithNotification n => err_error n
  | ErrPlain t => t
  end.

(** ** The state handlers and the driver *)

Section Driver.

Context `{Codec}.

Definition config : M NeighborConfig :=
  f <- getF ;; mret (neighbor f).

(** [f.conn.Write(b)], its error if any. *)
Definition connWrite (b : list Z) : M (option error) :=
  tell (ConnWrite b) ;;
  c <- next ;;
  match c with
  | WriteOk => mret None
  | WriteErr t => mret (Some (ErrPlain t))
  | _ => stuck
  end.

Definition sendNotification (c : NotifErrCode) (sc : NotifErrSubcode)
  (d : list Z) : M (option error) :=
  match serializeNotification {| Code := c; Subcode := sc; Data := d |} with
  | inr e => mret (Some e)
  | inl b => connWrite b
  end.

Definition sendCease : M (option error) :=
  sendNotification NotifErrCodeCease NotifErrSubcodeZero [].

Definition sendHoldTimerExpired : M (option error) :=
  sendNotification NotifErrCodeHoldTimerExpired NotifErrSubcodeZero [].

Definition sendKeepAlive : M (option error) :=
  match serializeKeepAlive with
  | inr _ => panic "bug serializing keepalive message"
  | inl b => connWrite b
  end.

Definition cleanupConn : M unit := tell CleanupConn.

Definition drainHoldTimer : M unit := tell HoldTimerDrain.

Definition drainAndResetHoldTimer : M unit :=
  drainHoldTimer ;;
  f <- getF ;;
  tell (HoldTimerReset (holdTime f)).

Definition idle : M FSMState := mret ConnectState.

(** The tail of [connect], from [newOpenMessage] on: the OPEN-sending
    step. *)
Definition sendOpen : M FSMState :=
  f <- getF ;;
  match newOpenMessage (localASN f) (holdTime f) (Address (neighbor f)) with
  | inr err =>
      emitOr (EventNeighborErr (neighbor f)
                (ErrPlain ("error creating open message: "
                           ++ errorText err)))
        (cleanupConn ;; mret DisabledState)
        (cleanupConn ;; mret IdleState)
  | inl o =>
      match serializeOpen o with
      | inr _ => panic "bug serializing open message"
      | inl b =>
          r <- connWrite b ;;
          match r with
          | Some err =>
              emitOr (EventNeighborErr (neighbor f)
                        (ErrPlain ("error sending open message: "
                                   ++ errorText err)))
                (cleanupConn ;; mret DisabledState)
                (cleanupConn ;; mret ConnectState)
          | None => mret OpenSentState
          end
      end
  end.

Definition connect : M FSMState :=
  f <- getF ;;
  tell (ConnectRetryTimerReset connectRetryTime) ;;
  tell (Dial (Address (neighbor f))) ;;
  c <- next ;;
  match c with
  | Disable => tell DialCancel ;; mret DisabledState
  | ConnectRetryTimerFired =>
      tell DialCancel ;;
      c' <- next ;;
      match c' with
      | DialOk => tell ConnInstalled ;; sendOpen
      | DialErr _ => mret ConnectState
      | _ => stuck
      end
  | DialErr t =>
      tell DialCancel ;;
      emitOr (EventNeighborErr (neighbor f)
                (ErrPlain ("error connecting to neighbor: " ++ t)))
        (tell ConnectRetryTimerDrain ;; mret DisabledState)
        (tell ConnectRetryTimerDrain ;; mret ActiveState)
  | DialOk =>
      tell DialCancel ;;
      tell ConnectRetryTimerDrain ;;
      tell ConnInstalled ;;
      sendOpen
  | _ => stuck
  end.

Definition active : M FSMState :=
  tell (ConnectRetryTimerReset connectRetryTime) ;;
  c <- next ;;
  match c with
  | Disable => mret DisabledState
  | ConnectRetryTimerFired => mret ConnectState
  | _ => stuck
  end.

Definition handleErr (err : error) (nextState : FSMState) : M FSMState :=
  match err with
  | ErrWithNotification e =>
      sendNotification (code e) (subcode e) (data e) ;; mret tt
  | ErrPlain _ => mret tt
  end ;;
  cfg <- config ;;
  emitOr (EventNeighborErr cfg err)
    (drainHoldTimer ;; cleanupConn ;; mret DisabledState)
    (drainHoldTimer ;; cleanupConn ;; mret nextState).

Definition handleHoldTimerExpired (nextState : FSMState) : M FSMState :=
  sendHoldTimerExpired ;;
  cfg <- config ;;
  emitOr (EventNeighborHoldTimerExpired cfg)
    (cleanupConn ;; mret DisabledState)
    (cleanupConn ;; mret nextState).

(** [f.validateOpen(open)] run by the driver. *)
Definition validateOpenM (open : openMessage.t)
  : M (option errWithNotification) :=
  f <- getF ;;
  let (f', r) := validateOpen f open in
  putF f' ;;
  match r with
  | Return e => mret e
  | Panic t => panic t
  end.

Definition openSent : M FSMState :=
  f <- getF ;;
  tell (HoldTimerReset (holdTime f)) ;;
  c <- next ;;
  match c with
  | Disable =>
      sendCease ;; drainHoldTimer ;; cleanupConn ;; mret DisabledState
  | ReaderErr err => handleErr err ActiveState
  | HoldTimerFired => handleHoldTimerExpired IdleState
  | Recv m =>
      match m with
      | MsgOpen open =>
          r <- validateOpenM open ;;
          match r with
          | Some e => handleErr (ErrWithNotification e) IdleState
          | None =>
              r' <- sendKeepAlive ;;
              match r' with
              | Some err => handleErr err IdleState
              | None => drainAndResetHoldTimer ;; mret OpenConfirmState
              end
          end
      | MsgNotification notif =>
          emitOr (EventNeighborNotificationReceived (neighbor f) notif)
            (drainHoldTimer ;; cleanupConn ;; mret DisabledState)
            (drainHoldTimer ;; cleanupConn ;; mret IdleState)
      | _ => drainHoldTimer ;; cleanupConn ;; mret IdleState
      end
  | _ => stuck
  end.

(** [openConfirm]: every alternative of the [select] returns, so its
    [for] never takes a second turn. *)
Definition openConfirm : M FSMState :=
  c <- next ;;
  match c with
  | Disable =>
      sendCease ;; drainHoldTimer ;; cleanupConn ;; mret DisabledState
  | ReaderErr err => handleErr err IdleState
  | HoldTimerFired => handleHoldTimerExpired IdleState
  | Recv m =>
      match m with
      | MsgKeepAlive =>
          drainAndResetHoldTimer ;;
          f <- getF ;;
          tell (KeepAliveTimerReset (keepAliveTime f)) ;;
          mret EstablishedState
      | _ =>
          handleErr
            (ErrPlain
               ("message received in openConfirm state is not a keepalive, type: "
                ++ messageTypeString m))
            IdleState
      end
  | _ => stuck
  end.

(** [established]: one turn of the [for] per unit of fuel. *)
Fixpoint establishedLoop (fuel : nat) : M FSMState :=
  match fuel with
  | O => stuck
  | S fuel' =>
      c <- next ;;
      match c with
      | Disable =>
          sendCease ;; drainHoldTimer ;; cleanupConn ;; mret DisabledState
      | ReaderErr err => handleErr err IdleState
      | HoldTimerFired => handleHoldTimerExpired IdleState
      | KeepAliveTimerFired =>
          r <- sendKeepAlive ;;
          match r with
          | Some err => handleErr err IdleState
          | None =>
              f <- getF ;;
              tell (KeepAliveTimerReset (keepAliveTime f)) ;;
              establishedLoop fuel'
          end
      | Recv m =>
          cfg <- config ;;
          match m with
          | MsgKeepAlive => drainAndResetHoldTimer ;; establishedLoop fuel'
          | MsgUpdate body =>
              drainAndResetHoldTimer ;;
              emitOr (EventNeighborUpdateReceived cfg body)
                (sendCease ;; drainHoldTimer ;; cleanupConn ;;
                 mret DisabledState)
                (establishedLoop fuel')
          | MsgNotification notif =>
              emitOr (EventNeighborNotificationReceived cfg notif)
                (drainHoldTimer ;; cleanupConn ;; mret DisabledState)
                (drainHoldTimer ;; cleanupConn ;; mret IdleState)
          | MsgOpen _ =>
              emitOr (EventNeighborErr cfg
                        (ErrPlain
                           "open message received while in established state"))
                (drainHoldTimer ;; cleanupConn ;; mret DisabledState)
                (sendNotification NotifErrCodeMessageHeader
                   NotifErrSubcodeBadType [OpenMessageType] ;;
                 drainHoldTimer ;; cleanupConn ;; mret IdleState)
          end
      | _ => stuck
      end
  end.

(** Every turn consumes a choice, so the schedule bounds the turns. *)
Definition established : M FSMState :=
  fun w => establishedLoop (S (List.length (schedule w))) w.

(** [f.transitionAndPanicOnErr(state)] run by the driver. *)
Definition transitionM (state : FSMState) : M unit :=
  f <- getF ;;
  match transitionAndPanicOnErr f state with
  | Return f' => putF f'
  | Panic t => panic t
  end.

(** The handler the [switch] of [loop] selects. *)
Definition handler (state : FSMState) : M FSMState :=
  match state with
  | DisabledState => mret DisabledState   (* not dispatched: see loopN *)
  | IdleState => idle
  | ConnectState => connect
  | ActiveState => active
  | OpenSentState => openSent
  | OpenConfirmState => openConfirm
  | EstablishedState => established
  end.

(** [loop]: one turn of the [for] per unit of fuel; returning [tt] is
    the [return] that ends the driver goroutine. *)
Fixpoint loopN (fuel : nat) : M unit :=
  match fuel with
  | O => stuck
  | S fuel' =>
      f <- getF ;;
      let state := s f in
      let dispatch : M unit :=
        match state with
        | DisabledState => tell DisableEcho ;; mret tt
        | _ => st <- handler state ;; transitionM st ;; loopN fuel'
        end in
      if negb (FSMState_eqb state DisabledState) then
        c <- next ;;
        match c with
        | EventSent =>
            tell (Emit (EventNeighborStateTransition (neighbor f) state)) ;;
            dispatch
        | Disable => tell DisableEcho ;; mret tt
        | _ => stuck
        end
      else dispatch
  end.

(** A turn that does not return consumes a choice. *)
Definition loop : M unit :=
  fun w => loopN (S (List.length (schedule w))) w.

End Driver.

(** ** [shut], seen from its caller *)

(** How a call of [shut] ends.  It returns at once when the state read
    under the lock is [DisabledState].  Otherwise it sends on [f.disable]
    and waits for the echo: the channel is unbuffered, so the send
    completes only if the driver goroutine is still there to receive. *)
Inductive shutOutcome : Type :=
| ShutReturnsAtOnce
| ShutHandshake
| ShutBlocksForever.

Definition shut (f : standardFSM) (driverRunning : bool) : shutOutcome :=
  if FSMState_eqb (s f) DisabledState then ShutReturnsAtOnce
  else if driverRunning then ShutHandshake
  else ShutBlocksForever.

(** ** The rules of section 4.3, as the specification words them

    Each rule is a test on the received OPEN that yields the NOTIFICATION
    payload [(code, subcode, data)] of its failure.  Rule 4 cannot fail
    and is absent.  Rules 6 and 7 come in two readings.  Taken as
    numbered ([rule6], [rule7], [firstFailureNumbered]), rule 6 looks at
    every optional parameter before rule 7 looks at any capability.
    Taken parameter by parameter ([rule6_7], [firstFailure]), each
    parameter in message order is refused when it is not a capability
    parameter, or when it holds a Four-Octet-AS capability with another
    ASN than the configured one. *)
Module Rules.

Definition payload : Type := NotifErrCode * NotifErrSubcode * list Z.

Definition openError (sc : NotifErrSubcode) (d : list Z) : payload :=
  (NotifErrCodeOpenMessage, sc, d).

Definition rule1 (msg : openMessage.t) : option payload :=
  if openMessage.version msg =? 4 then None
  else Some (openError NotifErrSubcodeUnsupportedVersionNumber [0; 4]).

Definition rule2 (peerASN : Z) (msg : openMessage.t) : option payload :=
  if openMessage.asn msg =? asTrans then None
  else if openMessage.asn msg =? peerASN mod 65536 then None
  else Some (openError NotifErrSubcodeBadPeerAS []).

Definition rule3 (msg : openMessage.t) : option payload :=
  if openMessage.holdTime msg <? 3
  then Some (openError NotifErrSubcodeUnacceptableHoldTime [])
  else None.

Definition rule5 (msg : openMessage.t) : option payload :=
  if openMessage.bgpID msg =? 0
  then Some (openError NotifErrSubcodeBadBgpID [])
  else None.

Definition wrongFourOctetAs (peerASN : Z) (c : capability) : bool :=
  match c with
  | capFourOctetAs a => negb (a =? peerASN)
  | _ => false
  end.

Definition paramFailure (peerASN : Z) (p : optParam) : option payload :=
  match p with
  | otherOptParam _ _ =>
      Some (openError NotifErrSubcodeUnsupportedOptParam [])
  | capabilityOptParam caps =>
      if existsb (wrongFourOctetAs peerASN) caps
      then Some (openError NotifErrSubcodeBadPeerAS [])
      else None
  end.

Fixpoint firstSome {A} (l : list (option A)) : option A :=
  match l with
  | [] => None
  | Some a :: _ => Some a
  | None :: rest => firstSome rest
  end.

Definition rule6_7 (peerASN : Z) (msg : openMessage.t) : option payload :=
  firstSome (map (paramFailure peerASN) (openMessage.optParams msg)).

(** All capabilities the OPEN announces. *)
Definition capsOf (p : optParam) : list capability :=
  match p with
  | capabilityOptParam caps => caps
  | otherOptParam _ _ => []
  end.

Definition announced (msg : openMessage.t) : list capability :=
  flat_map capsOf (openMessage.optParams msg).

Definition isBgpLs (c : capability) : bool :=
  match c with
  | capMultiproto afi safi => (afi =? BgpLsAFI) && (safi =? BgpLsSAFI)
  | _ => false
  end.

Definition isFourOctetAs (c : capability) : bool :=
  match c with
  | capFourOctetAs _ => true
  | _ => false
  end.

Definition bgpLsAfFound (msg : openMessage.t) : bool :=
  existsb isBgpLs (announced msg).

Definition fourOctetAsFound (msg : openMessage.t) : bool :=
  existsb isFourOctetAs (announced msg).

(** [lsCap] is the serialized BGP-LS multiprotocol capability. *)
Definition rule8 (lsCap : list Z) (msg : openMessage.t) : option payload :=
  if bgpLsAfFound msg then None
  else Some (openError NotifErrSubcodeUnsupportedCapability lsCap).

Definition rule9 (msg : openMessage.t) : option payload :=
  if (openMessage.asn msg =? asTrans) && negb (fourOctetAsFound msg)
  then Some (openError NotifErrSubcodeBadPeerAS [])
  else None.

(** Rules applied in order, rules 6 and 7 parameter by parameter; the
    first failure is returned. *)
Definition firstFailure (peerASN : Z) (lsCap : list Z)
  (msg : openMessage.t) : option payload :=
  firstSome [rule1 msg; rule2 peerASN msg; rule3 msg; rule5 msg;
             rule6_7 peerASN msg; rule8 lsCap msg; rule9 msg].

Definition isOtherParam (p : optParam) : bool :=
  match p with
  | otherOptParam _ _ => true
  | capabilityOptParam _ => false
  end.

(** Rule 6 on its own: every optional parameter is a capability
    parameter. *)
Definition rule6 (msg : openMessage.t) : option payload :=
  if existsb isOtherParam (openMessage.optParams msg)
  then Some (openError NotifErrSubcodeUnsupportedOptParam [])
  else None.

(** Rule 7 on its own: every Four-Octet-AS capability announced carries
    the configured ASN. *)
Definition rule7 (peerASN : Z) (msg : openMessage.t) : option payload :=
  if existsb (wrongFourOctetAs peerASN) (announced msg)
  then Some (openError NotifErrSubcodeBadPeerAS [])
  else None.

(** The nine rules applied one after the other as the list numbers them;
    the first failure is returned. *)
Definition firstFailureNumbered (peerASN : Z) (lsCap : list Z)
  (msg : openMessage.t) : option payload :=
  firstSome [rule1 msg; rule2 peerASN msg; rule3 msg; rule5 msg;
             rule6 msg; rule7 peerASN msg; rule8 lsCap msg; rule9 msg].

(** The section 4.6 table, one pair per allowed edge. *)
Definition allStates : list FSMState :=
  [DisabledState; IdleState; ConnectState; ActiveState; OpenSentState;
   OpenConfirmState; EstablishedState].

Definition allowedEdges : list (FSMState * FSMState) :=
  map (fun from => (from, DisabledState)) allStates
  ++ map (fun from => (from, IdleState)) allStates
  ++ [(IdleState, ConnectState); (ConnectState, ConnectState);
      (ActiveState, ConnectState)]
  ++ [(ConnectState, ActiveState); (ActiveState, ActiveState);
      (OpenSentState, ActiveState)]
  ++ [(ConnectState, OpenSentState); (ActiveState, OpenSentState)]
  ++ [(OpenSentState, OpenConfirmState);
      (OpenConfirmState, OpenConfirmState)]
  ++ [(OpenConfirmState, EstablishedState);
      (EstablishedState, EstablishedState)].

End Rules.

(** The NOTIFICATION payload an error carries. *)
Definition payloadOf (e : errWithNotification) : Rules.payload :=
  (code e, subcode e, data e).

(** ** A concrete codec, to run the model

    An encoding after RFC 4271 and RFC 5492 with the framing of section 6
    (16-byte marker, 2-byte length, 1-byte type).  The general theorems
    hold for every codec; this one instantiates them. *)
Module Wire.

Definition codeByte (c : NotifErrCode) : Z :=
  match c with
  | NotifErrCodeMessageHeader => 1
  | NotifErrCodeOpenMessage => 2
  | NotifErrCodeHoldTimerExpired => 4
  | NotifErrCodeCease => 6
  end.

Definition subcodeByte (sc : NotifErrSubcode) : Z :=
  match sc with
  | NotifErrSubcodeZero => 0
  | NotifErrSubcodeBadType => 3
  | NotifErrSubcodeUnsupportedVersionNumber => 1
  | NotifErrSubcodeBadPeerAS => 2
  | NotifErrSubcodeBadBgpID => 3
  | NotifErrSubcodeUnsupportedOptParam => 4
  | NotifErrSubcodeUnacceptableHoldTime => 6
  | NotifErrSubcodeUnsupportedCapability => 7
  end.

Definition len (b : list Z) : Z := Z.of_nat (List.length b).

Definition PutUint32 (v : Z) : list Z :=
  PutUint16 (v / 65536) ++ PutUint16 v.

Definition frame (msgType : Z) (body : list Z) : list Z :=
  repeat 255 16 ++ PutUint16 (19 + len body) ++ [msgType] ++ body.

Definition capBytes (c : capability) : list Z :=
  match c with
  | capFourOctetAs a => [65; 4] ++ PutUint32 a
  | capMultiproto afi safi => [1; 4] ++ PutUint16 afi ++ [0; safi]
  | capUnknown c v => [c; len v] ++ v
  end.

Definition paramBytes (p : optParam) : list Z :=
  match p with
  | capabilityOptParam caps =>
      let b := flat_map capBytes caps in [2; len b] ++ b
  | otherOptParam t v => [t; len v] ++ v
  end.

Definition openBytes (o : openMessage.t) : list Z :=
  let ps := flat_map paramBytes (openMessage.optParams o) in
  frame OpenMessageType
    ([openMessage.version o] ++ PutUint16 (openMessage.asn o)
     ++ PutUint16 (openMessage.holdTime o)
     ++ PutUint32 (openMessage.bgpID o) ++ [len ps] ++ ps).

Definition notificationBytes (n : NotificationMessage) : list Z :=
  frame 3 ([codeByte (Code n); subcodeByte (Subcode n)] ++ Data n).

Definition typeString (m : Message) : string :=
  match m with
  | MsgOpen _ => "open"
  | MsgKeepAlive => "keepalive"
  | MsgUpdate _ => "update"
  | MsgNotification _ => "notification"
  end.

#[export] Instance codec : Codec := {
  serializeOpen o := inl (openBytes o);
  serializeKeepAlive := inl (frame 4 []);
  serializeNotification n := inl (notificationBytes n);
  serializeCapability c := inl (capBytes c);
  messageTypeString := typeString
}.

End Wire.

(** ** Vocabulary of the statements *)

(** The OPEN [msg] with its optional parameters replaced. *)
Definition withOptParams (msg : openMessage.t) (ps : list optParam)
  : openMessage.t :=
  openMessage.mk (openMessage.version msg) (openMessage.asn msg)
    (openMessage.holdTime msg) (openMessage.bgpID msg) ps.

Definition isUnknown (c : capability) : bool :=
  match c with
  | capUnknown _ _ => true
  | _ => false
  end.

(** A capability list without its unknown capabilities.  Two lists with
    the same image differ only by unknown capabilities mixed in. *)
Definition dropUnknown (caps : list capability) : list capability :=
  filter (fun c => negb (isUnknown c)) caps.

(** The byte strings written on the connection, in order. *)
Definition written (tr : list effect) : list (list Z) :=
  flat_map (fun e => match e with ConnWrite b => [b] | _ => [] end) tr.

(** ** Sample data *)

Module Sample.

(** Configured: peer 127.0.0.1, ASN 64512, hold time 180 s. *)
Definition cfg : NeighborConfig :=
  {| Address := [127; 0; 0; 1]; ASN := 64512; HoldTime := 180 * Second |}.

Definition f0 : standardFSM := newFSM cfg 64512.

Definition caps : list capability :=
  [capFourOctetAs 64512; capMultiproto BgpLsAFI BgpLsSAFI].

(** A valid OPEN of the peer, with hold time [hold] seconds and BGP
    identifier 172.16.0.1. *)
Definition peerOpen (hold : Z) : openMessage.t :=
  openMessage.mk 4 64512 hold 2886729729 [capabilityOptParam caps].

Definition lsCap : list Z :=
  Wire.capBytes (capMultiproto BgpLsAFI BgpLsSAFI).

(** An OPEN that passes rules 1 to 5 and then carries a capability
    parameter with a Four-Octet-AS capability for another ASN, followed
    by a parameter that is not a capability parameter. *)
Definition mixedOpen : openMessage.t :=
  openMessage.mk 4 64512 90 2886729729
    [capabilityOptParam
       [capFourOctetAs 1; capMultiproto BgpLsAFI BgpLsSAFI];
     otherOptParam 1 [9]].

(** The FSM of a neighbor whose configured ASN is AS_TRANS itself. *)
Definition cfgTrans : NeighborConfig :=
  {| Address := [127; 0; 0; 1]; ASN := 23456; HoldTime := 90 * Second |}.

Definition start (f : standardFSM) (sched : list choice) : world :=
  {| fsm := f; schedule := sched; trace := [] |}.

(** A first session negotiated down to 30 s by the peer, lost on a read
    error, then a reconnection up to the second OPEN we send. *)
Definition reconnect : list choice :=
  [ EventSent;                         (* transition event: idle *)
    EventSent;                         (* transition event: connect *)
    DialOk; WriteOk;                   (* dial succeeds, OPEN written *)
    EventSent;                         (* transition event: openSent *)
    Recv (MsgOpen (peerOpen 30)); WriteOk;   (* OPEN in, KEEPALIVE out *)
    EventSent;                         (* transition event: openConfirm *)
    Recv MsgKeepAlive;
    EventSent;                         (* transition event: established *)
    ReaderErr (ErrPlain "EOF");
    EventSent;                         (* error event *)
    EventSent;                         (* transition event: idle *)
    EventSent;                         (* transition event: connect *)
    DialOk; WriteOk;                   (* dial succeeds, OPEN written *)
    EventSent;                         (* transition event: openSent *)
    Disable; WriteOk ].                (* shut: Cease written *)

End Sample.

(** ** Vocabulary of the driver's invariants *)

(** The keepalive period is a third of the hold time, in whole seconds. *)
Definition keepAliveInv (f : standardFSM) : Prop :=
  keepAliveTime f = Truncate (Z.quot (holdTime f) 3) Second.

(** What a state handler may do to the FSM record: nothing to the
    configuration, the local ASN or the state, and the hold time only
    goes down, though not below 3 s unless it was there already. *)
Definition fsmRel (f f' : standardFSM) : Prop :=
  neighbor f' = neighbor f
  /\ localASN f' = localASN f
  /\ s f' = s f
  /\ holdTime f' <= holdTime f
  /\ (keepAliveInv f -> keepAliveInv f')
  /\ Z.min (holdTime f) (3 * Second) <= holdTime f'.

(** Connections installed minus connections torn down along a trace. *)
Definition connDelta (e : effect) : Z :=
  match e with
  | ConnInstalled => 1
  | CleanupConn => -1
  | _ => 0
  end.

Fixpoint conns (tr : list effect) : Z :=
  match tr with
  | [] => 0
  | e :: rest => connDelta e + conns rest
  end.

(** The states in which the FSM owns a connection. *)
Definition live (st : FSMState) : Z :=
  match st with
  | OpenSentState | OpenConfirmState | EstablishedState => 1
  | _ => 0
  end.

(** The panics of a serializer that fails on a message of our own. *)
Definition codecPanic (t : string) : Prop :=
  t = "bug serializing open message"%string
  \/ t = "bug serializing keepalive message"%string
  \/ t = "error serializing bgp-ls multiprotocol capability"%string.

(** [run m Q]: whenever [m] returns [a], having appended [added] to the
    trace and consumed [used] from the schedule, [Q a added used] holds;
    [m] panics only as [codecPanic] allows; and however it ends it has
    respected [fsmRel]. *)
Definition run {A} (m : M A)
  (Q : A -> list effect -> list choice -> Prop) : Prop :=
  forall w,
    match m w with
    | Done a w' =>
        exists added used,
          trace w' = trace w ++ added
          /\ schedule w = used ++ schedule w'
          /\ fsmRel (fsm w) (fsm w')
          /\ Q a added used
    | Panicked t w' => codecPanic t /\ fsmRel (fsm w) (fsm w')
    | Stuck w' => fsmRel (fsm w) (fsm w')
    end.

(** What the handler of state [st] promises about the state it returns:
    an edge of the transition table, a connection owned exactly in the
    states that have one, and DisabledState exactly on a disable
    request. *)
Definition handlerPost (st : FSMState) (st' : FSMState)
  (added : list effect) (used : list choice) : Prop :=
  In (st, st') Rules.allowedEdges
  /\ conns added = live st' - live st
  /\ (st' = DisabledState <-> In Disable used).

(** The world in which a piece of driver code ends, however it ends. *)
Definition outWorld {A} (o : outcome A) : world :=
  match o with
  | Done _ w => w
  | Panicked _ w => w
  | Stuck w => w
  end.

(** What the driver as a whole may do to the FSM record: as [fsmRel],
    but the state moves. *)
Definition driverRel (f f' : standardFSM) : Prop :=
  neighbor f' = neighbor f
  /\ localASN f' = localASN f
  /\ holdTime f' <= holdTime f
  /\ (keepAliveInv f -> keepAliveInv f')
  /\ Z.min (holdTime f) (3 * Second) <= holdTime f'.

(** What [loop] promises when it is started in world [w]. *)
Definition loopPost (w : world) (o : outcome unit) : Prop :=
  driverRel (fsm w) (fsm (outWorld o))
  /\ match o with
     | Done _ w' =>
         exists added used,
           trace w' = trace w ++ added ++ [DisableEcho]
           /\ schedule w = used ++ schedule w'
           /\ conns added = live (s (fsm w')) - live (s (fsm w))
           /\ (s (fsm w) <> DisabledState -> In Disable used)
     | Panicked t _ => codecPanic t
     | Stuck _ => True
     end.

(** The capabilities [validateOpen] looks at. *)
Definition relevantCap (c : capability) : bool :=
  Rules.isFourOctetAs c || Rules.isBgpLs c.

(** An optional parameter without the capabilities [validateOpen] does
    not look at. *)
Definition pruneParam (p : optParam) : optParam :=
  match p with
  | capabilityOptParam caps => capabilityOptParam (filter relevantCap caps)
  | otherOptParam t v => otherOptParam t v
  end.

(** Two optional parameters that differ only by the order of the
    capabilities inside. *)
Definition sameUpToOrder (p p' : optParam) : Prop :=
  match p, p' with
  | capabilityOptParam caps, capabilityOptParam caps' =>
      Permutation caps caps'
  | otherOptParam t v, otherOptParam t' v' => t = t' /\ v = v'
  | _, _ => False
  end.

(** The FSM after [validateOpen] has been called on each OPEN of a list in
    turn, as over the sessions of one neighbor. *)
Definition afterOpens `{Codec} (f : standardFSM) (msgs : list openMessage.t)
  : standardFSM :=
  fold_left (fun f m => fst (validateOpen f m)) msgs f.

(** ** Vocabulary of the trace invariants *)

(** Whether the FSM holds a connection ([1]) or not ([0]) after the
    effects of [tr], started with [n] connections; [None] as soon as an
    effect needs a connection that is not there ([conn.Write],
    [cleanupConn]) or installs one over another. *)
Fixpoint connAfter (n : Z) (tr : list effect) : option Z :=
  match tr with
  | [] => Some n
  | e :: rest =>
      match e with
      | ConnInstalled => if n =? 0 then connAfter 1 rest else None
      | CleanupConn => if n =? 1 then connAfter 0 rest else None
      | ConnWrite _ => if n =? 1 then connAfter n rest else None
      | _ => connAfter n rest
      end
  end.

(** The states announced by the state-transition events of a trace. *)
Fixpoint transitions (tr : list effect) : list FSMState :=
  match tr with
  | [] => []
  | Emit (EventNeighborStateTransition _ st) :: rest =>
      st :: transitions rest
  | _ :: rest => transitions rest
  end.

(** [walk st l]: the states of [l] follow one another, and the first
    follows [st], along edges of the transition table, and none of them
    is DisabledState. *)
Fixpoint walk (st : FSMState) (l : list FSMState) : Prop :=
  match l with
  | [] => True
  | x :: rest =>
      In (st, x) Rules.allowedEdges /\ x <> DisabledState /\ walk x rest
  end.

(** [runs m P Q]: what [m] appends to the trace satisfies [Q a] when it
    returns [a], and [P] when it panics or is blocked. *)
Definition runs {A} (m : M A) (P : list effect -> Prop)
  (Q : A -> list effect -> Prop) : Prop :=
  forall w,
    exists added,
      trace (outWorld (m w)) = trace w ++ added
      /\ match m w with
         | Done a _ => Q a added
         | _ => P added
         end.

(** The trace of the handler of state [st], while it runs and when it
    returns [st']: it uses the connection only while it has one, and
    announces no state. *)
Definition handlerRunning (st : FSMState) (added : list effect) : Prop :=
  connAfter (live st) added <> None /\ transitions added = [].

Definition handlerReturned (st st' : FSMState) (added : list effect)
  : Prop :=
  connAfter (live st) added = Some (live st') /\ transitions added = [].

(** The trace of the driver started in state [st]. *)
Definition loopRunning (st : FSMState) (added : list effect) : Prop :=
  connAfter (live st) added <> None
  /\ match transitions added with
     | [] => True
     | x :: rest => x = st /\ st <> DisabledState /\ walk st rest
     end.

(** ** The reader goroutine *)

(** What the environment of [read] decides. *)
Inductive readerChoice : Type :=
| CloseRequested             (* a receive on f.closeReader proceeds *)
| NotClosed                  (* the default arm of the first select *)
| ReadOk (b : list Z)        (* conn.Read stored b, at most 4096 bytes *)
| ReadErr (e : error)        (* conn.Read returned an error *)
| Delivered.                 (* the send on f.readerErr or f.msgCh proceeds *)

(** What [read] does, in program order. *)
Inductive readerEffect : Type :=
| SentMsg (m : Message)      (* f.msgCh <- m *)
| SentErr (e : error)        (* f.readerErr <- err *)
| ReaderClosed.              (* close(f.readerClosed), deferred *)

(** How [read], or a part of it, ends: it returns, goes on to the next
    statement, or stays blocked (the schedule is exhausted or its next
    choice is not offered). *)
Inductive readerOutcome : Type :=
| ReaderReturned (sched : list readerChoice) (tr : list readerEffect)
| ReaderGoesOn (sched : list readerChoice) (tr : list readerEffect)
| ReaderBlocked (sched : list readerChoice) (tr : list readerEffect).

Section Reader.

(** The message framer, an external collaborator. *)
Variable messagesFromBytes : list Z -> list Message + error.

(** The [select] that reports an error, followed by [return]. *)
Definition reportErr (e : error) (sched : list readerChoice)
  (tr : list readerEffect) : readerOutcome :=
  match sched with
  | Delivered :: sched' => ReaderReturned sched' (tr ++ [SentErr e])
  | CloseRequested :: sched' => ReaderReturned sched' tr
  | _ => ReaderBlocked sched tr
  end.

(** The [for _, m := range msgs] loop. *)
Fixpoint forward (msgs : list Message) (sched : list readerChoice)
  (tr : list readerEffect) : readerOutcome :=
  match msgs with
  | [] => ReaderGoesOn sched tr
  | m :: rest =>
      match sched with
      | Delivered :: sched' => forward rest sched' (tr ++ [SentMsg m])
      | CloseRequested :: sched' => ReaderReturned sched' tr
      | _ => ReaderBlocked sched tr
      end
  end.

(** The outer [for] of [read], one turn per unit of fuel. *)
Fixpoint readLoop (fuel : nat) (sched : list readerChoice)
  (tr : list readerEffect) : readerOutcome :=
  match fuel with
  | O => ReaderBlocked sched tr
  | S fuel' =>
      match sched with
      | CloseRequested :: sched' => ReaderReturned sched' tr
      | NotClosed :: sched' =>
          match sched' with
          | ReadErr e :: sched'' => reportErr e sched'' tr
          | ReadOk b :: sched'' =>
              match messagesFromBytes b with
              | inr e => reportErr e sched'' tr
              | inl msgs =>
                  match forward msgs sched'' tr with
                  | ReaderGoesOn s' t' => readLoop fuel' s' t'
                  | o => o
                  end
              end
          | _ => ReaderBlocked sched' tr
          end
      | _ => ReaderBlocked sched tr
      end
  end.

(** [read]: every turn consumes a choice, so the schedule bounds the
    turns; the deferred close runs when the function returns. *)
Definition read (sched : list readerChoice) : readerOutcome :=
  match readLoop (S (List.length sched)) sched [] with
  | ReaderReturned s' t' => ReaderReturned s' (t' ++ [ReaderClosed])
  | o => o
  end.

(** The messages the framer finds in the successful reads of a schedule,
    in order; a chunk it refuses yields none. *)
Definition framed (c : readerChoice) : list Message :=
  match c with
  | ReadOk b =>
      match messagesFromBytes b with
      | inl msgs => msgs
      | inr _ => []
      end
  | _ => []
  end.

End Reader.

Definition readerTrace (o : readerOutcome) : list readerEffect :=
  match o with
  | ReaderReturned _ tr => tr
  | ReaderGoesOn _ tr => tr
  | ReaderBlocked _ tr => tr
  end.

Definition returned (o : readerOutcome) : bool :=
  match o with
  | ReaderReturned _ _ => true
  | _ => false
  end.

(** The messages sent on f.msgCh along a trace. *)
Definition sentMsgs (tr : list readerEffect) : list Message :=
  flat_map (fun e => match e with SentMsg m => [m] | _ => [] end) tr.

(** ** State names *)

(** [FSMState.String]; its [default] arm, "unknown state", covers values
    outside the seven constants. *)
Definition FSMState_String (st : FSMState) : string :=
  match st with
  | DisabledState => "disabled"
  | IdleState => "idle"
  | ConnectState => "connect"
  | ActiveState => "active"
  | OpenSentState => "openSent"
  | OpenConfirmState => "openConfirm"
  | EstablishedState => "established"
  end.

(** ** Vocabulary of the timer discipline *)

(** The hold timer after the effects of [tr]: pending ([1]) or idle
    ([0]); [None] as soon as it is reset while pending or drained while
    idle (a reset over a pending expiry leaves a stale one in the
    channel; a drain of an idle timer blocks for ever).  The connect
    retry timer likewise. *)
Fixpoint holdAfter (n : Z) (tr : list effect) : option Z :=
  match tr with
  | [] => Some n
  | e :: rest =>
      match e with
      | HoldTimerReset _ => if n =? 0 then holdAfter 1 rest else None
      | HoldTimerDrain => if n =? 1 then holdAfter 0 rest else None
      | _ => holdAfter n rest
      end
  end.

Fixpoint retryAfter (n : Z) (tr : list effect) : option Z :=
  match tr with
  | [] => Some n
  | e :: rest =>
      match e with
      | ConnectRetryTimerReset _ => if n =? 0 then retryAfter 1 rest else None
      | ConnectRetryTimerDrain => if n =? 1 then retryAfter 0 rest else None
      | _ => retryAfter n rest
      end
  end.

(** The expiries a handler received in its selects. *)
Fixpoint holdFired (used : list choice) : Z :=
  match used with
  | [] => 0
  | HoldTimerFired :: rest => 1 + holdFired rest
  | _ :: rest => holdFired rest
  end.

Fixpoint retryFired (used : list choice) : Z :=
  match used with
  | [] => 0
  | ConnectRetryTimerFired :: rest => 1 + retryFired rest
  | _ :: rest => retryFired rest
  end.

(** The states entered with the hold timer pending. *)
Definition holdArmed (st : FSMState) : Z :=
  match st with
  | OpenConfirmState | EstablishedState => 1
  | _ => 0
  end.

(** What the handler of state [st] does to the two timers when it
    returns [st']. *)
Definition handlerTimers (st st' : FSMState) (added : list effect)
  (used : list choice) : Prop :=
  (exists n, holdAfter (holdArmed st) added = Some n
             /\ n - holdFired used = holdArmed st')
  /\ (exists k, retryAfter 0 added = Some k
                /\ (st' <> DisabledState -> k - retryFired used = 0)).

(** * Properties *)

(** ** The scan of the optional parameters *)

Lemma scanCaps_flags (peerASN : Z) (caps : list capability) (fa fb : bool) :
  scanCaps peerASN caps (fa, fb) =
    if existsb (Rules.wrongFourOctetAs peerASN) caps
    then inr (mkErr "bad peer AS" NotifErrSubcodeBadPeerAS [])
    else inl (fa || existsb Rules.isFourOctetAs caps,
              fb || existsb Rules.isBgpLs caps).
Proof.
  revert fa fb.
  induction caps as [|c rest IH]; intros fa fb; cbn [scanCaps existsb].
  - now rewrite !orb_false_r.
  - destruct c as [a|afi safi|k v]; cbn [Rules.wrongFourOctetAs
      Rules.isFourOctetAs Rules.isBgpLs fst snd orb].
    + destruct (a =? peerASN); cbn [negb orb]; [|reflexivity].
      rewrite IH. now rewrite orb_true_r.
    + destruct ((afi =? BgpLsAFI) && (safi =? BgpLsSAFI)); rewrite IH;
        cbn [orb]; [now rewrite orb_true_r | reflexivity].
    + now rewrite IH.
Qed.

Lemma scanOptParams_flags (peerASN : Z) (ps : list optParam) (fa fb : bool) :
  match scanOptParams peerASN ps (fa, fb) with
  | inr e =>
      Rules.firstSome (map (Rules.paramFailure peerASN) ps)
      = Some (payloadOf e)
  | inl (fa', fb') =>
      Rules.firstSome (map (Rules.paramFailure peerASN) ps) = None
      /\ fa' = fa || existsb Rules.isFourOctetAs (flat_map Rules.capsOf ps)
      /\ fb' = fb || existsb Rules.isBgpLs (flat_map Rules.capsOf ps)
  end.
Proof.
  revert fa fb.
  induction ps as [|p rest IH]; intros fa fb;
    cbn [scanOptParams map Rules.firstSome flat_map existsb].
  - now rewrite !orb_false_r.
  - destruct p as [caps|t v]; cbn [Rules.paramFailure Rules.capsOf].
    + rewrite scanCaps_flags.
      destruct (existsb (Rules.wrongFourOctetAs peerASN) caps);
        [reflexivity|].
      specialize (IH (fa || existsb Rules.isFourOctetAs caps)
                    (fb || existsb Rules.isBgpLs caps)).
      destruct (scanOptParams peerASN rest _) as [[fa' fb']|e];
        [|exact IH].
      destruct IH as (Hnone & Hfa & Hfb).
      rewrite !existsb_app, !orb_assoc. auto.
    + reflexivity.
Qed.

Lemma neighbor_reduceHoldTime (f : standardFSM) (h : Z) :
  neighbor (reduceHoldTime f h) = neighbor f.
Proof. unfold reduceHoldTime. now destruct (h * Second <? holdTime f). Qed.

Lemma s_reduceHoldTime (f : standardFSM) (h : Z) :
  s (reduceHoldTime f h) = s f.
Proof. unfold reduceHoldTime. now destruct (h * Second <? holdTime f). Qed.

(** [validateOpen] returns the first failure of the rules of section 4.3,
    whenever the BGP-LS capability serializes (to [b]). *)
Lemma validateOpen_firstFailure `{Codec} (f : standardFSM)
  (msg : openMessage.t) (b : list Z) :
  serializeCapability (capMultiproto BgpLsAFI BgpLsSAFI) = inl b ->
  exists r,
    snd (validateOpen f msg) = Return r
    /\ option_map payloadOf r
       = Rules.firstFailure (ASN (neighbor f)) b msg.
Proof.
  intros Hser.
  unfold validateOpen, Rules.firstFailure, Rules.rule1, Rules.rule2,
    Rules.rule3, Rules.rule5, Rules.rule6_7, Rules.rule8, Rules.rule9,
    Rules.bgpLsAfFound, Rules.fourOctetAsFound, Rules.announced, uint16.
  destruct (openMessage.version msg =? 4); cbn [negb Rules.firstSome];
    [|eexists; split; reflexivity].
  destruct (openMessage.asn msg =? asTrans) eqn:Htrans;
    cbn [negb andb Rules.firstSome].
  2: destruct (openMessage.asn msg =? ASN (neighbor f) mod 65536);
       cbn [negb Rules.firstSome]; [|eexists; split; reflexivity].
  all: destruct (openMessage.holdTime msg <? 3); cbn [Rules.firstSome];
         [eexists; split; reflexivity|].
  all: destruct (openMessage.bgpID msg =? 0); cbn [Rules.firstSome];
         [eexists; split; reflexivity|].
  all: rewrite neighbor_reduceHoldTime.
  all: pose proof (scanOptParams_flags (ASN (neighbor f))
                     (openMessage.optParams msg) false false) as Hscan.
  all: destruct (scanOptParams _ _ _) as [[fa fb]|e];
         [|rewrite Hscan; eexists; split; reflexivity].
  all: destruct Hscan as (Hnone & Hfa & Hfb); rewrite Hnone;
         cbn [orb] in Hfa, Hfb; subst fa fb.
  all: destruct (existsb Rules.isBgpLs _); cbn [negb Rules.firstSome];
         [|rewrite Hser; eexists; split; reflexivity].
  all: cbn [andb].
  all: try destruct (existsb Rules.isFourOctetAs _);
         cbn [negb Rules.firstSome]; eexists; split; reflexivity.
Qed.

(** When rules 1 to 7 pass, [validateOpen] has reduced the hold time and
    decides on the two flags of the scan. *)
Lemma validateOpen_rules_1_7_pass `{Codec} (f : standardFSM)
  (msg : openMessage.t) :
  Rules.rule1 msg = None ->
  Rules.rule2 (ASN (neighbor f)) msg = None ->
  Rules.rule3 msg = None ->
  Rules.rule5 msg = None ->
  Rules.rule6_7 (ASN (neighbor f)) msg = None ->
  validateOpen f msg =
    (reduceHoldTime f (openMessage.holdTime msg),
     if negb (Rules.bgpLsAfFound msg) then
       match serializeCapability (capMultiproto BgpLsAFI BgpLsSAFI) with
       | inr _ => Panic "error serializing bgp-ls multiprotocol capability"
       | inl b =>
           Return (Some (mkErr "bgp-ls capability not found"
                           NotifErrSubcodeUnsupportedCapability b))
       end
     else if (openMessage.asn msg =? asTrans)
             && negb (Rules.fourOctetAsFound msg) then
       Return (Some (mkErr
         "4-octet AS indicated in as field but not found in capabilities"
         NotifErrSubcodeBadPeerAS []))
     else Return None).
Proof.
  unfold Rules.rule1, Rules.rule2, Rules.rule3, Rules.rule5, Rules.rule6_7,
    Rules.bgpLsAfFound, Rules.fourOctetAsFound, Rules.announced,
    validateOpen, uint16.
  intros H1 H2 H3 H5 H67.
  destruct (openMessage.version msg =? 4); [|discriminate]. cbn [negb].
  assert (Hasn : negb (openMessage.asn msg =? asTrans)
                 && negb (openMessage.asn msg =? ASN (neighbor f) mod 65536)
                 = false).
  { destruct (openMessage.asn msg =? asTrans); [reflexivity|].
    destruct (openMessage.asn msg =? ASN (neighbor f) mod 65536);
      [reflexivity | discriminate]. }
  rewrite Hasn.
  destruct (openMessage.holdTime msg <? 3); [discriminate|].
  destruct (openMessage.bgpID msg =? 0); [discriminate|].
  rewrite neighbor_reduceHoldTime.
  pose proof (scanOptParams_flags (ASN (neighbor f))
                (openMessage.optParams msg) false false) as Hscan.
  destruct (scanOptParams _ _ _) as [[fa fb]|e]; [|congruence].
  destruct Hscan as (_ & Hfa & Hfb). cbn [orb] in Hfa, Hfb. subst fa fb.
  destruct (existsb Rules.isBgpLs _); cbn [negb]; [|now destruct serializeCapability].
  now destruct (openMessage.asn msg =? asTrans),
    (existsb Rules.isFourOctetAs _).
Qed.

Lemma scanCaps_dropUnknown (peerASN : Z) (caps : list capability)
  (flags : bool * bool) :
  scanCaps peerASN (dropUnknown caps) flags = scanCaps peerASN caps flags.
Proof.
  revert flags.
  induction caps as [|c rest IH]; intros flags; [reflexivity|].
  destruct c as [a|afi safi|k v]; cbn [dropUnknown filter isUnknown negb
    scanCaps]; fold (dropUnknown rest).
  - destruct (negb (a =? peerASN)); [reflexivity | apply IH].
  - destruct ((afi =? BgpLsAFI) && (safi =? BgpLsSAFI)); apply IH.
  - apply IH.
Qed.

Lemma existsb_false_forall {A} (p : A -> bool) (l : list A) :
  (forall x, In x l -> p x = false) -> existsb p l = false.
Proof.
  intros Hall. induction l as [|x l IH]; [reflexivity|].
  cbn [existsb]. rewrite (Hall x (or_introl eq_refl)). cbn [orb].
  apply IH. intros y Hy. apply Hall. now right.
Qed.

(** ** The transition guard *)

Lemma transition_allowed (f : standardFSM) (state : FSMState) :
  In (s f, state) Rules.allowedEdges ->
  transition f state = inl (set_s f state).
Proof.
  destruct f as [cfg la st ka ht].
  unfold Rules.allowedEdges, Rules.allStates.
  destruct st, state; cbn; intros Hin; try reflexivity;
    exfalso; intuition congruence.
Qed.

Lemma transition_refused (f : standardFSM) (state : FSMState) :
  ~ In (s f, state) Rules.allowedEdges ->
  transition f state = inr errInvalidStateTransition.
Proof.
  destruct f as [cfg la st ka ht].
  unfold Rules.allowedEdges, Rules.allStates.
  destruct st, state; cbn; intros Hnot; try reflexivity;
    exfalso; apply Hnot; repeat (first [left; reflexivity | right]).
Qed.

Lemma allowedEdges_dec (a b : FSMState) :
  {In (a, b) Rules.allowedEdges} + {~ In (a, b) Rules.allowedEdges}.
Proof.
  apply in_dec. decide equality; decide equality.
Defined.

(** C7. The transition guard accepts a requested transition exactly when
    (current state, requested state) is an edge of the section 4.6 table:
    it then installs the requested state; on every other pair it returns
    [errInvalidStateTransition], [transitionAndPanicOnErr] panics and the
    driver's step ends in that panic instead of continuing. *)
Theorem C7_transition_guard (f : standardFSM) (state : FSMState) :
  ((exists f', transition f state = inl f')
   <-> In (s f, state) Rules.allowedEdges)
  /\ (In (s f, state) Rules.allowedEdges ->
      transition f state = inl (set_s f state)
      /\ transitionAndPanicOnErr f state = Return (set_s f state))
  /\ (~ In (s f, state) Rules.allowedEdges ->
      transition f state = inr errInvalidStateTransition
      /\ transitionAndPanicOnErr f state
         = Panic "bug in FSM state transition"
      /\ forall w, fsm w = f ->
           transitionM state w = Panicked "bug in FSM state transition" w).
Proof.
  split; [split|split].
  - intros [f' Hf'].
    destruct (allowedEdges_dec (s f) state) as [Hin|Hnot]; [exact Hin|].
    rewrite (transition_refused f state Hnot) in Hf'. discriminate.
  - intros Hin. eexists. now apply transition_allowed.
  - intros Hin. unfold transitionAndPanicOnErr.
    now rewrite (transition_allowed f state Hin).
  - intros Hnot. unfold transitionM, mbind, getF, transitionAndPanicOnErr.
    rewrite (transition_refused f state Hnot).
    repeat split. intros w Hw. now rewrite Hw, (transition_refused f state Hnot).
Qed.

(** The guard at a refused and at an allowed pair. *)
Lemma C7_transition_guard_witness :
  transitionAndPanicOnErr (set_s Sample.f0 EstablishedState) ConnectState
  = Panic "bug in FSM state transition"
  /\ transitionAndPanicOnErr Sample.f0 ConnectState
     = Return (set_s Sample.f0 ConnectState).
Proof.
  split.
  - apply (C7_transition_guard (set_s Sample.f0 EstablishedState)
             ConnectState).
    unfold Rules.allowedEdges, Rules.allStates. cbn. intuition congruence.
  - apply (C7_transition_guard Sample.f0 ConnectState).
    unfold Rules.allowedEdges, Rules.allStates. cbn. tauto.
Defined.

(** ** The OPEN validator: rejections *)

Lemma rule6_7_after_rule6 (peerASN : Z) (msg : openMessage.t) :
  Rules.rule6 msg = None ->
  Rules.rule6_7 peerASN msg = Rules.rule7 peerASN msg.
Proof.
  unfold Rules.rule6, Rules.rule6_7, Rules.rule7, Rules.announced.
  induction (openMessage.optParams msg) as [|p ps IH];
    cbn [existsb map Rules.firstSome flat_map]; [reflexivity|].
  destruct p as [caps|t v];
    cbn [Rules.isOtherParam Rules.paramFailure Rules.capsOf orb];
    [|discriminate].
  intros Hps. rewrite existsb_app.
  destruct (existsb (Rules.wrongFourOctetAs peerASN) caps);
    [reflexivity | exact (IH Hps)].
Qed.

Lemma rule6_7_without_rule7 (peerASN : Z) (msg : openMessage.t) :
  Rules.rule7 peerASN msg = None ->
  Rules.rule6_7 peerASN msg = Rules.rule6 msg.
Proof.
  unfold Rules.rule6, Rules.rule6_7, Rules.rule7, Rules.announced.
  induction (openMessage.optParams msg) as [|p ps IH];
    cbn [existsb map Rules.firstSome flat_map]; [reflexivity|].
  destruct p as [caps|t v];
    cbn [Rules.isOtherParam Rules.paramFailure Rules.capsOf orb app];
    [|reflexivity].
  rewrite existsb_app.
  destruct (existsb (Rules.wrongFourOctetAs peerASN) caps);
    [discriminate | exact IH].
Qed.

(** C2, amended. [validateOpen] applies rules 1 to 5 of section 4.3 in
    order, then rules 6 and 7 together to each optional parameter in
    message order (a parameter that is not a capability parameter, or a
    Four-Octet-AS capability with another ASN inside it, whichever comes
    first in the message), then rules 8 and 9, and returns the payload of
    the first failure (none when all pass).  This is the numbered order
    of the specification whenever rule 6 or rule 7 passes on the whole
    message.  In particular an OPEN whose version is not 4 is refused
    with OpenMessageError/UnsupportedVersionNumber and data [00 04]
    whatever its other fields, the FSM untouched; and an OPEN that passes
    rules 1 to 7 and announces no Multiprotocol(BGP-LS, BGP-LS)
    capability is refused with OpenMessageError/UnsupportedCapability and
    the serialized BGP-LS capability as data. *)
Theorem C2_validateOpen_first_failing_rule `{Codec} (f : standardFSM)
  (msg : openMessage.t) :
  (forall b,
     serializeCapability (capMultiproto BgpLsAFI BgpLsSAFI) = inl b ->
     exists r,
       snd (validateOpen f msg) = Return r
       /\ option_map payloadOf r
          = Rules.firstFailure (ASN (neighbor f)) b msg)
  /\ (openMessage.version msg <> 4 ->
      exists e,
        validateOpen f msg = (f, Return (Some e))
        /\ payloadOf e
           = (NotifErrCodeOpenMessage,
              NotifErrSubcodeUnsupportedVersionNumber, PutUint16 4)
        /\ PutUint16 4 = [0; 4])
  /\ (forall b,
        serializeCapability (capMultiproto BgpLsAFI BgpLsSAFI) = inl b ->
        Rules.rule1 msg = None ->
        Rules.rule2 (ASN (neighbor f)) msg = None ->
        Rules.rule3 msg = None ->
        Rules.rule5 msg = None ->
        Rules.rule6_7 (ASN (neighbor f)) msg = None ->
        Rules.bgpLsAfFound msg = false ->
        exists e,
          snd (validateOpen f msg) = Return (Some e)
          /\ payloadOf e
             = (NotifErrCodeOpenMessage,
                NotifErrSubcodeUnsupportedCapability, b))
  /\ (forall b,
        Rules.rule6 msg = None
        \/ Rules.rule7 (ASN (neighbor f)) msg = None ->
        Rules.firstFailure (ASN (neighbor f)) b msg
        = Rules.firstFailureNumbered (ASN (neighbor f)) b msg).
Proof.
  split; [|split; [|split]].
  4: { intros b Hor.
       unfold Rules.firstFailure, Rules.firstFailureNumbered.
       destruct (Rules.rule1 msg), (Rules.rule2 (ASN (neighbor f)) msg),
         (Rules.rule3 msg), (Rules.rule5 msg);
         cbn [Rules.firstSome]; try reflexivity.
       destruct Hor as [H6 | H7].
       - rewrite (rule6_7_after_rule6 _ _ H6), H6. reflexivity.
       - rewrite (rule6_7_without_rule7 _ _ H7), H7.
         now destruct (Rules.rule6 msg). }
  - intros b Hser. now apply validateOpen_firstFailure.
  - intros Hv. unfold validateOpen.
    destruct (Z.eqb_spec (openMessage.version msg) 4) as [Heq|_];
      [contradiction|].
    cbn [negb]. eexists. repeat split.
  - intros b Hser H1 H2 H3 H5 H67 Hls.
    rewrite (validateOpen_rules_1_7_pass f msg H1 H2 H3 H5 H67).
    rewrite Hls, Hser. cbn [negb snd]. eexists. split; reflexivity.
Qed.

(** An OPEN of version 5, and a valid OPEN stripped of its BGP-LS
    capability. *)
Lemma C2_validateOpen_first_failing_rule_witness :
  (exists e,
     @validateOpen Wire.codec Sample.f0
       (openMessage.mk 5 64512 90 2886729729
          [capabilityOptParam Sample.caps])
     = (Sample.f0, Return (Some e))
     /\ payloadOf e
        = (NotifErrCodeOpenMessage,
           NotifErrSubcodeUnsupportedVersionNumber, PutUint16 4)
     /\ PutUint16 4 = [0; 4])
  /\ (exists e,
        snd (@validateOpen Wire.codec Sample.f0
               (openMessage.mk 4 64512 90 2886729729
                  [capabilityOptParam [capFourOctetAs 64512]]))
        = Return (Some e)
        /\ payloadOf e
           = (NotifErrCodeOpenMessage,
              NotifErrSubcodeUnsupportedCapability, Sample.lsCap)).
Proof.
  split.
  - apply (@C2_validateOpen_first_failing_rule Wire.codec Sample.f0).
    cbn. discriminate.
  - apply (@C2_validateOpen_first_failing_rule Wire.codec Sample.f0);
      reflexivity.
Defined.

(** C2 as stated fails when a parameter that is not a capability
    parameter follows a capability parameter with a bad Four-Octet-AS
    capability: in the numbered order rule 6 fails first, with
    UnsupportedOptParam; [validateOpen] has returned BadPeerAS from the
    first parameter before it looks at the second. *)
Lemma C2_counterexample :
  Rules.firstFailureNumbered (ASN (neighbor Sample.f0)) Sample.lsCap
    Sample.mixedOpen
  = Some (NotifErrCodeOpenMessage, NotifErrSubcodeUnsupportedOptParam, [])
  /\ snd (@validateOpen Wire.codec Sample.f0 Sample.mixedOpen)
     = Return (Some (mkErr "bad peer AS" NotifErrSubcodeBadPeerAS []))
  /\ payloadOf (mkErr "bad peer AS" NotifErrSubcodeBadPeerAS [])
     = (NotifErrCodeOpenMessage, NotifErrSubcodeBadPeerAS, [])
  /\ NotifErrSubcodeBadPeerAS <> NotifErrSubcodeUnsupportedOptParam.
Proof.
  repeat split. discriminate.
Qed.

(** C9. An OPEN without optional parameters that passes rules 1 to 5 is
    refused by the missing-BGP-LS check, with
    OpenMessageError/UnsupportedCapability and the serialized BGP-LS
    capability as data, and not with UnsupportedOptParam. *)
Theorem C9_empty_optParams_unsupported_capability `{Codec}
  (f : standardFSM) (msg : openMessage.t) (b : list Z) :
  serializeCapability (capMultiproto BgpLsAFI BgpLsSAFI) = inl b ->
  openMessage.version msg = 4 ->
  (openMessage.asn msg = asTrans
   \/ openMessage.asn msg = uint16 (ASN (neighbor f))) ->
  3 <= openMessage.holdTime msg ->
  openMessage.bgpID msg <> 0 ->
  openMessage.optParams msg = [] ->
  exists e,
    snd (validateOpen f msg) = Return (Some e)
    /\ code e = NotifErrCodeOpenMessage
    /\ subcode e = NotifErrSubcodeUnsupportedCapability
    /\ data e = b
    /\ subcode e <> NotifErrSubcodeUnsupportedOptParam.
Proof.
  intros Hser Hv Hasn Hhold Hid Hps.
  rewrite (validateOpen_rules_1_7_pass f msg).
  - unfold Rules.bgpLsAfFound, Rules.announced. rewrite Hps, Hser.
    cbn. eexists. repeat split. discriminate.
  - unfold Rules.rule1. now rewrite Hv.
  - unfold Rules.rule2, uint16 in *.
    destruct Hasn as [-> | ->]; [reflexivity|].
    rewrite Z.eqb_refl. now destruct (_ =? asTrans).
  - unfold Rules.rule3. now destruct (Z.ltb_spec (openMessage.holdTime msg) 3);
      [lia|].
  - unfold Rules.rule5.
    now destruct (Z.eqb_spec (openMessage.bgpID msg) 0).
  - unfold Rules.rule6_7. now rewrite Hps.
Qed.

Lemma C9_empty_optParams_unsupported_capability_witness :
  exists e,
    snd (@validateOpen Wire.codec Sample.f0
           (openMessage.mk 4 64512 90 2886729729 []))
    = Return (Some e)
    /\ code e = NotifErrCodeOpenMessage
    /\ subcode e = NotifErrSubcodeUnsupportedCapability
    /\ data e = Sample.lsCap
    /\ subcode e <> NotifErrSubcodeUnsupportedOptParam.
Proof.
  apply (@C9_empty_optParams_unsupported_capability Wire.codec Sample.f0);
    cbn; solve [reflexivity | right; reflexivity | lia].
Defined.

(** C10. With AS_TRANS (23456) as the configured peer ASN, an OPEN that
    carries 23456 in its two-octet AS field and no Four-Octet-AS
    capability is refused with OpenMessageError/BadPeerAS even though the
    BGP-LS capability is present and every other rule is satisfied: the
    AS field is read as the AS_TRANS sentinel before it is compared with
    the configured ASN. *)
Theorem C10_as_trans_sentinel_precedence `{Codec} (f : standardFSM)
  (msg : openMessage.t) :
  ASN (neighbor f) = 23456 ->
  openMessage.asn msg = 23456 ->
  Rules.rule1 msg = None ->
  Rules.rule3 msg = None ->
  Rules.rule5 msg = None ->
  Rules.rule6_7 (ASN (neighbor f)) msg = None ->
  Rules.fourOctetAsFound msg = false ->
  Rules.bgpLsAfFound msg = true ->
  openMessage.asn msg = uint16 (ASN (neighbor f))
  /\ exists e,
       snd (validateOpen f msg) = Return (Some e)
       /\ payloadOf e
          = (NotifErrCodeOpenMessage, NotifErrSubcodeBadPeerAS, []).
Proof.
  intros Hcfg Hasn H1 H3 H5 H67 Hfour Hls.
  split; [now rewrite Hcfg, Hasn|].
  rewrite (validateOpen_rules_1_7_pass f msg H1); try assumption.
  - rewrite Hls, Hfour, Hasn. cbn. eexists. split; reflexivity.
  - unfold Rules.rule2. now rewrite Hasn.
Qed.

Lemma C10_as_trans_sentinel_precedence_witness :
  23456 = uint16 23456
  /\ exists e,
       snd (@validateOpen Wire.codec (newFSM Sample.cfgTrans 64512)
              (openMessage.mk 4 23456 90 2886729729
                 [capabilityOptParam
                    [capMultiproto BgpLsAFI BgpLsSAFI]]))
       = Return (Some e)
       /\ payloadOf e
          = (NotifErrCodeOpenMessage, NotifErrSubcodeBadPeerAS, []).
Proof.
  apply (@C10_as_trans_sentinel_precedence Wire.codec
           (newFSM Sample.cfgTrans 64512)
           (openMessage.mk 4 23456 90 2886729729
              [capabilityOptParam [capMultiproto BgpLsAFI BgpLsSAFI]]));
    reflexivity.
Defined.

(** ** The OPEN validator: acceptance *)

Lemma validateOpen_dropUnknown `{Codec} (f : standardFSM)
  (msg : openMessage.t) (caps caps' : list capability) :
  dropUnknown caps' = dropUnknown caps ->
  validateOpen f (withOptParams msg [capabilityOptParam caps'])
  = validateOpen f (withOptParams msg [capabilityOptParam caps]).
Proof.
  intros Hsame. unfold validateOpen, withOptParams.
  cbn [openMessage.version openMessage.asn openMessage.holdTime
       openMessage.bgpID openMessage.optParams scanOptParams].
  rewrite <- (scanCaps_dropUnknown _ caps'), Hsame, scanCaps_dropUnknown.
  reflexivity.
Qed.

Lemma withOptParams_same (msg : openMessage.t) :
  withOptParams msg (openMessage.optParams msg) = msg.
Proof. now destruct msg. Qed.

(** C3. An OPEN with version 4, an AS field that matches the configured
    peer ASN (as a u16, or AS_TRANS), hold time at least 3, a non-zero
    BGP identifier and a single capability parameter that contains
    FourOctetAS(configured ASN) and Multiprotocol(BGP-LS, BGP-LS), any
    further Four-Octet-AS capability in it also carrying the configured
    ASN, is accepted; and a capability list that differs from it only by
    unknown capabilities gets the same verdict. *)
Theorem C3_valid_open_accepted `{Codec} (f : standardFSM)
  (msg : openMessage.t) (caps : list capability) :
  openMessage.version msg = 4 ->
  (openMessage.asn msg = uint16 (ASN (neighbor f))
   \/ openMessage.asn msg = asTrans) ->
  3 <= openMessage.holdTime msg ->
  openMessage.bgpID msg <> 0 ->
  openMessage.optParams msg = [capabilityOptParam caps] ->
  In (capFourOctetAs (ASN (neighbor f))) caps ->
  In (capMultiproto BgpLsAFI BgpLsSAFI) caps ->
  (forall a, In (capFourOctetAs a) caps -> a = ASN (neighbor f)) ->
  snd (validateOpen f msg) = Return None
  /\ forall caps',
       dropUnknown caps' = dropUnknown caps ->
       validateOpen f (withOptParams msg [capabilityOptParam caps'])
       = validateOpen f msg
       /\ snd (validateOpen f (withOptParams msg [capabilityOptParam caps']))
          = Return None.
Proof.
  intros Hv Hasn Hhold Hid Hps Hfour Hls Hall.
  assert (Hok : snd (validateOpen f msg) = Return None).
  { rewrite (validateOpen_rules_1_7_pass f msg).
    - unfold Rules.bgpLsAfFound, Rules.fourOctetAsFound, Rules.announced.
      rewrite Hps. cbn [flat_map Rules.capsOf]. rewrite app_nil_r.
      assert (Hb : existsb Rules.isBgpLs caps = true).
      { apply existsb_exists. eexists. split; [exact Hls|reflexivity]. }
      assert (Ha : existsb Rules.isFourOctetAs caps = true).
      { apply existsb_exists. eexists. split; [exact Hfour|reflexivity]. }
      rewrite Hb, Ha. cbn [negb snd]. now rewrite andb_false_r.
    - unfold Rules.rule1. now rewrite Hv.
    - unfold Rules.rule2, uint16 in *.
      destruct Hasn as [-> | ->]; [|reflexivity].
      rewrite Z.eqb_refl. now destruct (_ =? asTrans).
    - unfold Rules.rule3.
      now destruct (Z.ltb_spec (openMessage.holdTime msg) 3); [lia|].
    - unfold Rules.rule5.
      now destruct (Z.eqb_spec (openMessage.bgpID msg) 0).
    - unfold Rules.rule6_7. rewrite Hps.
      cbn [map Rules.paramFailure Rules.firstSome].
      rewrite existsb_false_forall; [reflexivity|].
      intros c Hc. destruct c as [a|afi safi|k v]; try reflexivity.
      cbn. rewrite (Hall a Hc). now rewrite Z.eqb_refl. }
  split; [exact Hok|].
  intros caps' Hsame.
  assert (Heq : validateOpen f (withOptParams msg [capabilityOptParam caps'])
                = validateOpen f msg).
  { rewrite (validateOpen_dropUnknown f msg caps caps' Hsame).
    now rewrite <- Hps, withOptParams_same. }
  split; [exact Heq|]. now rewrite Heq.
Qed.

(** The OPEN of the happy path, and the same with unknown capabilities
    before, between and after the two it needs. *)
Lemma C3_valid_open_accepted_witness :
  snd (@validateOpen Wire.codec Sample.f0 (Sample.peerOpen 90))
  = Return None
  /\ snd (@validateOpen Wire.codec Sample.f0
            (withOptParams (Sample.peerOpen 90)
               [capabilityOptParam
                  [capUnknown 2 []; capFourOctetAs 64512;
                   capUnknown 70 [1; 2]; capMultiproto BgpLsAFI BgpLsSAFI;
                   capUnknown 128 []]]))
     = Return None.
Proof.
  assert (Hw := @C3_valid_open_accepted Wire.codec Sample.f0
                  (Sample.peerOpen 90) Sample.caps).
  destruct Hw as [Hok Hmixed].
  - reflexivity.
  - left. reflexivity.
  - cbn. lia.
  - cbn. lia.
  - reflexivity.
  - left. reflexivity.
  - right. left. reflexivity.
  - intros a [Ha|[Ha|[]]]; [now inversion Ha | discriminate Ha].
  - split; [exact Hok|]. apply Hmixed. reflexivity.
Defined.

(** ** The negotiated hold time *)

(** A keepalive period of a whole number of seconds: a third of the hold
    time, rounded down. *)
Lemma Truncate_third (k : Z) :
  0 <= k -> Truncate (Z.quot (k * Second) 3) Second = (k / 3) * Second.
Proof.
  intros Hk. unfold Truncate. change (Second <=? 0) with false. cbv iota.
  assert (HS : Second = 1000000000) by reflexivity.
  rewrite Z.quot_div_nonneg by lia.
  pose proof (Z.div_mod k 3 ltac:(lia)) as Hdm.
  pose proof (Z.mod_pos_bound k 3 ltac:(lia)) as Hr.
  set (q := k / 3) in *. set (r := k mod 3) in *.
  assert (Hsplit : k * Second / 3 = q * Second + r * Second / 3).
  { replace (k * Second) with (q * Second * 3 + r * Second) by lia.
    now rewrite Z.div_add_l by lia. }
  assert (Hx : 0 <= r * Second / 3 < Second).
  { split; [apply Z.div_pos; lia|].
    apply Z.div_lt_upper_bound; lia. }
  rewrite Hsplit.
  rewrite Z.rem_mod_nonneg by lia.
  rewrite Z.add_comm, Z.mod_add by lia.
  rewrite Z.mod_small by lia. lia.
Qed.

Lemma holdTime_reduceHoldTime (f : standardFSM) (p : Z) :
  holdTime (reduceHoldTime f p) = Z.min (holdTime f) (p * Second).
Proof.
  unfold reduceHoldTime.
  destruct (Z.ltb_spec (p * Second) (holdTime f)); cbn [holdTime set_hold];
    lia.
Qed.

Lemma keepAliveTime_reduceHoldTime (f : standardFSM) (p : Z) :
  keepAliveTime f = Truncate (Z.quot (holdTime f) 3) Second ->
  keepAliveTime (reduceHoldTime f p)
  = Truncate (Z.quot (holdTime (reduceHoldTime f p)) 3) Second.
Proof.
  unfold reduceHoldTime.
  now destruct (p * Second <? holdTime f).
Qed.

(** The FSM [validateOpen] leaves behind: untouched when one of rules 1
    to 3 fails, with the hold time reduced in every other case, whether
    the OPEN is then accepted or refused. *)
Lemma validateOpen_fsm `{Codec} (f : standardFSM) (msg : openMessage.t) :
  fst (validateOpen f msg) =
    match Rules.firstSome [Rules.rule1 msg;
                           Rules.rule2 (ASN (neighbor f)) msg;
                           Rules.rule3 msg] with
    | Some _ => f
    | None => reduceHoldTime f (openMessage.holdTime msg)
    end.
Proof.
  unfold validateOpen, Rules.rule1, Rules.rule2, Rules.rule3, uint16.
  destruct (openMessage.version msg =? 4); cbn [negb Rules.firstSome];
    [|reflexivity].
  destruct (openMessage.asn msg =? asTrans); cbn [negb andb Rules.firstSome].
  2: destruct (openMessage.asn msg =? ASN (neighbor f) mod 65536);
       cbn [negb Rules.firstSome]; [|reflexivity].
  all: destruct (openMessage.holdTime msg <? 3); cbn [Rules.firstSome];
         [reflexivity|].
  all: destruct (openMessage.bgpID msg =? 0); [reflexivity|].
  all: destruct (scanOptParams _ _ _) as [[fa fb]|e]; [|reflexivity].
  all: destruct fb; cbn [negb]; [|now destruct serializeCapability].
  all: now destruct fa.
Qed.

(** An OPEN is accepted only past rules 1 to 3. *)
Lemma validateOpen_accepted_rules_1_3 `{Codec} (f : standardFSM)
  (msg : openMessage.t) :
  snd (validateOpen f msg) = Return None ->
  Rules.firstSome [Rules.rule1 msg; Rules.rule2 (ASN (neighbor f)) msg;
                   Rules.rule3 msg] = None.
Proof.
  unfold validateOpen, Rules.rule1, Rules.rule2, Rules.rule3, uint16.
  destruct (openMessage.version msg =? 4); cbn [negb Rules.firstSome snd];
    [|discriminate].
  destruct (openMessage.asn msg =? asTrans);
    cbn [negb andb Rules.firstSome snd].
  2: destruct (openMessage.asn msg =? ASN (neighbor f) mod 65536);
       cbn [negb Rules.firstSome snd]; [|discriminate].
  all: destruct (openMessage.holdTime msg <? 3); cbn [Rules.firstSome snd];
         [discriminate | reflexivity].
Qed.

(** C4, amended. For every OPEN that [validateOpen] accepts, the hold time
    afterwards is the minimum of the hold time the FSM held before the
    call and the peer's, and the keepalive period is a third of it
    truncated to whole seconds whenever that held before the call.  On an
    FSM that still holds a configured hold time of [c] seconds, as a fresh
    one does, this is [min c peer] seconds and [floor (min c peer / 3)]
    seconds. *)
Theorem C4_hold_time_after_accepted_open `{Codec} (f f' : standardFSM)
  (msg : openMessage.t) :
  validateOpen f msg = (f', Return None) ->
  holdTime f' = Z.min (holdTime f) (openMessage.holdTime msg * Second)
  /\ (keepAliveTime f = Truncate (Z.quot (holdTime f) 3) Second ->
      keepAliveTime f' = Truncate (Z.quot (holdTime f') 3) Second)
  /\ (forall cfg la c,
        f = newFSM cfg la -> 0 <= c -> HoldTime cfg = c * Second ->
        holdTime f' = Z.min c (openMessage.holdTime msg) * Second
        /\ keepAliveTime f'
           = (Z.min c (openMessage.holdTime msg) / 3) * Second).
Proof.
  intros Hacc.
  assert (Hf' : f' = reduceHoldTime f (openMessage.holdTime msg)).
  { pose proof (validateOpen_fsm f msg) as Hfsm.
    rewrite (validateOpen_accepted_rules_1_3 f msg) in Hfsm
      by now rewrite Hacc.
    now rewrite Hacc in Hfsm. }
  assert (Hmin : holdTime f'
                 = Z.min (holdTime f) (openMessage.holdTime msg * Second))
    by (subst f'; apply holdTime_reduceHoldTime).
  assert (Hka : keepAliveTime f = Truncate (Z.quot (holdTime f) 3) Second ->
                keepAliveTime f' = Truncate (Z.quot (holdTime f') 3) Second)
    by (subst f'; apply keepAliveTime_reduceHoldTime).
  split; [exact Hmin|]. split; [exact Hka|].
  intros cfg la c Hfresh Hc Hcfg.
  assert (Hpeer : 3 <= openMessage.holdTime msg).
  { pose proof (validateOpen_accepted_rules_1_3 f msg) as H13.
    rewrite Hacc in H13. specialize (H13 eq_refl).
    unfold Rules.rule1, Rules.rule2, Rules.rule3 in H13.
    destruct (openMessage.version msg =? 4); [|discriminate].
    cbn [Rules.firstSome] in H13.
    destruct (Z.ltb_spec (openMessage.holdTime msg) 3); [|lia].
    destruct (openMessage.asn msg =? asTrans); cbn in H13;
      [discriminate|].
    destruct (_ =? _); discriminate. }
  assert (Hh : holdTime f = c * Second)
    by (subst f; cbn [holdTime newFSM]; exact Hcfg).
  assert (Hm : holdTime f'
               = Z.min c (openMessage.holdTime msg) * Second).
  { rewrite Hmin, Hh. unfold Second. lia. }
  split; [exact Hm|].
  rewrite Hka by (subst f; reflexivity).
  rewrite Hm. apply Truncate_third. lia.
Qed.

(** Configured 180 s, peer 30 s: hold 30 s, keepalive 10 s. *)
Lemma C4_hold_time_after_accepted_open_witness :
  holdTime (fst (@validateOpen Wire.codec Sample.f0 (Sample.peerOpen 30)))
  = Z.min 180 30 * Second
  /\ keepAliveTime
       (fst (@validateOpen Wire.codec Sample.f0 (Sample.peerOpen 30)))
     = (Z.min 180 30 / 3) * Second.
Proof.
  refine (proj2 (proj2
            (@C4_hold_time_after_accepted_open Wire.codec Sample.f0
               (fst (@validateOpen Wire.codec Sample.f0
                       (Sample.peerOpen 30)))
               (Sample.peerOpen 30) _))
            Sample.cfg 64512 180 _ _ _).
  - reflexivity.
  - reflexivity.
  - lia.
  - reflexivity.
Defined.

(** C4 as stated fails on a reconnection: a first OPEN with hold time 30
    is accepted and leaves 30 s; a later OPEN with hold time 90 is
    accepted too and leaves 30 s, not min(180, 90) = 90 s. *)
Lemma C4_counterexample :
  snd (@validateOpen Wire.codec Sample.f0 (Sample.peerOpen 30))
  = Return None
  /\ HoldTime (neighbor Sample.f0) = 180 * Second
  /\ snd (@validateOpen Wire.codec
            (fst (@validateOpen Wire.codec Sample.f0 (Sample.peerOpen 30)))
            (Sample.peerOpen 90))
     = Return None
  /\ holdTime
       (fst (@validateOpen Wire.codec
               (fst (@validateOpen Wire.codec Sample.f0
                       (Sample.peerOpen 30)))
               (Sample.peerOpen 90)))
     = 30 * Second
  /\ 30 * Second <> Z.min 180 90 * Second.
Proof.
  repeat split. discriminate.
Qed.




(** ** The OPEN we send *)

Lemma newOpenMessage_holdTime (asn : Z) (hold : Duration) (ip : IP)
  (o : openMessage.t) :
  newOpenMessage asn hold ip = inl o ->
  openMessage.holdTime o = uint16 (Z.quot hold Second).
Proof.
  unfold newOpenMessage. destruct (To4 ip); [|discriminate].
  intros Ho. injection Ho as <-. reflexivity.
Qed.

(** C6, amended. Every time the Connect handler reaches the OPEN-sending
    step, on either path to it, the OPEN it constructs and writes carries
    the FSM's current hold time [f.holdTime] in whole seconds.  That is
    the configured hold time as long as the FSM still holds it, as a
    fresh FSM does; after an earlier OPEN reduced [f.holdTime] it is the
    reduced value. *)
Theorem C6_open_carries_current_hold_time `{Codec} (w : world)
  (o : openMessage.t) (b : list Z) (rest : list choice) :
  newOpenMessage (localASN (fsm w)) (holdTime (fsm w))
    (Address (neighbor (fsm w))) = inl o ->
  serializeOpen o = inl b ->
  openMessage.holdTime o = uint16 (Z.quot (holdTime (fsm w)) Second)
  /\ (holdTime (fsm w) = HoldTime (neighbor (fsm w)) ->
      openMessage.holdTime o
      = uint16 (Z.quot (HoldTime (neighbor (fsm w))) Second))
  /\ (schedule w = DialOk :: WriteOk :: rest ->
      connect w
      = Done OpenSentState
          {| fsm := fsm w; schedule := rest;
             trace := trace w
                      ++ [ConnectRetryTimerReset connectRetryTime;
                          Dial (Address (neighbor (fsm w)));
                          DialCancel; ConnectRetryTimerDrain;
                          ConnInstalled; ConnWrite b] |})
  /\ (schedule w = ConnectRetryTimerFired :: DialOk :: WriteOk :: rest ->
      connect w
      = Done OpenSentState
          {| fsm := fsm w; schedule := rest;
             trace := trace w
                      ++ [ConnectRetryTimerReset connectRetryTime;
                          Dial (Address (neighbor (fsm w)));
                          DialCancel; ConnInstalled; ConnWrite b] |}).
Proof.
  intros Hopen Hser.
  pose proof (newOpenMessage_holdTime _ _ _ _ Hopen) as Hhold.
  split; [exact Hhold|]. split; [intros <-; exact Hhold|].
  destruct w as [f sched tr]. cbn [fsm schedule trace] in *.
  split; intros ->;
    unfold connect, sendOpen, connWrite, mbind, getF, tell, next, mret;
    cbn [fsm schedule trace]; rewrite Hopen, Hser;
    cbn [fsm schedule trace]; rewrite <- !app_assoc; reflexivity.
Qed.

(** The first OPEN of a fresh FSM configured with 180 s carries 180. *)
Lemma C6_open_carries_current_hold_time_witness :
  openMessage.holdTime
    (openMessage.mk 4 64512 180 2130706433 [capabilityOptParam Sample.caps])
  = uint16 (Z.quot (HoldTime Sample.cfg) Second).
Proof.
  refine (proj1 (proj2
            (@C6_open_carries_current_hold_time Wire.codec
               (Sample.start Sample.f0 [DialOk; WriteOk])
               (openMessage.mk 4 64512 180 2130706433
                  [capabilityOptParam Sample.caps])
               (Wire.openBytes
                  (openMessage.mk 4 64512 180 2130706433
                     [capabilityOptParam Sample.caps]))
               [] _ _)) _); reflexivity.
Defined.

(** C6 as stated fails on a reconnection.  Under the schedule
    [Sample.reconnect] the driver of an FSM configured with 180 s opens a
    session in which the peer's OPEN brings the hold time down to 30 s,
    loses it, reconnects, and writes a second OPEN that carries 30. *)
Lemma C6_counterexample :
  exists w,
    @loop Wire.codec (Sample.start Sample.f0 Sample.reconnect) = Done tt w
    /\ HoldTime (neighbor (fsm w)) = 180 * Second
    /\ written (trace w)
       = [Wire.openBytes
            (openMessage.mk 4 64512 180 2130706433
               [capabilityOptParam Sample.caps]);
          Wire.frame 4 [];
          Wire.openBytes
            (openMessage.mk 4 64512 30 2130706433
               [capabilityOptParam Sample.caps]);
          Wire.notificationBytes
            {| Code := NotifErrCodeCease; Subcode := NotifErrSubcodeZero;
               Data := [] |}]
    /\ newOpenMessage 64512 (30 * Second) [127; 0; 0; 1]
       = inl (openMessage.mk 4 64512 30 2130706433
                [capabilityOptParam Sample.caps])
    /\ 30 <> Z.quot (180 * Second) Second.
Proof.
  eexists.
  split; [vm_compute; reflexivity|].
  split; [reflexivity|].
  split; [vm_compute; reflexivity|].
  split; [reflexivity | discriminate].
Qed.

(** ** OPEN received in Established *)

(** C8, amended. When an OPEN arrives in Established, at any turn of the
    handler, and the emit of the NeighborErr event goes through, the FSM
    emits that event, sends a NOTIFICATION MessageHeaderError /
    BadMessageType whose data is the single byte OpenMessageType
    (whether or not the write succeeds), drains the hold timer, tears the
    connection down and returns Idle.  When a disable request wins over
    the emit, it emits no event, tears the connection down and returns
    Disabled. *)
Theorem C8_open_in_established `{Codec} (n : nat) (w : world)
  (o : openMessage.t) (rest : list choice) :
  (forall b wr,
     serializeNotification
       {| Code := NotifErrCodeMessageHeader;
          Subcode := NotifErrSubcodeBadType;
          Data := [OpenMessageType] |} = inl b ->
     schedule w = Recv (MsgOpen o) :: EventSent :: wr :: rest ->
     (wr = WriteOk \/ exists t, wr = WriteErr t) ->
     establishedLoop (S n) w
     = Done IdleState
         {| fsm := fsm w; schedule := rest;
            trace := trace w
                     ++ [Emit (EventNeighborErr (neighbor (fsm w))
                                 (ErrPlain
                                    "open message received while in established state"));
                         ConnWrite b; HoldTimerDrain; CleanupConn] |})
  /\ (schedule w = Recv (MsgOpen o) :: Disable :: rest ->
      exists added,
        establishedLoop (S n) w
        = Done DisabledState
            {| fsm := fsm w; schedule := rest;
               trace := trace w ++ added |}
        /\ (forall ev, ~ In (Emit ev) added)
        /\ In CleanupConn added).
Proof.
  destruct w as [f sched tr]. cbn [fsm schedule trace].
  split.
  - intros b wr Hser -> Hwr.
    unfold establishedLoop, emitOr, sendNotification, connWrite,
      drainHoldTimer, cleanupConn, config, mbind, getF, tell, next, mret.
    cbn [fsm schedule trace]. rewrite Hser.
    destruct Hwr as [-> | [t ->]]; cbn [fsm schedule trace];
      rewrite <- !app_assoc; reflexivity.
  - intros ->. exists [HoldTimerDrain; CleanupConn].
    split; [|split].
    + unfold establishedLoop, emitOr, drainHoldTimer, cleanupConn, config,
        mbind, getF, tell, next, mret.
      cbn [fsm schedule trace]. rewrite <- !app_assoc. reflexivity.
    + intros ev [Hin | [Hin | []]]; discriminate Hin.
    + right. left. reflexivity.
Qed.

Lemma C8_open_in_established_witness :
  @established Wire.codec
    (Sample.start (set_s Sample.f0 EstablishedState)
       [Recv (MsgOpen (Sample.peerOpen 90)); EventSent; WriteOk])
  = Done IdleState
      {| fsm := set_s Sample.f0 EstablishedState; schedule := [];
         trace :=
           [Emit (EventNeighborErr Sample.cfg
                    (ErrPlain
                       "open message received while in established state"));
            ConnWrite
              (Wire.notificationBytes
                 {| Code := NotifErrCodeMessageHeader;
                    Subcode := NotifErrSubcodeBadType;
                    Data := [OpenMessageType] |});
            HoldTimerDrain; CleanupConn] |}.
Proof.
  refine (proj1 (@C8_open_in_established Wire.codec 3
                   (Sample.start (set_s Sample.f0 EstablishedState)
                      [Recv (MsgOpen (Sample.peerOpen 90)); EventSent;
                       WriteOk])
                   (Sample.peerOpen 90) []) _ WriteOk _ _ _).
  - reflexivity.
  - reflexivity.
  - left. reflexivity.
Defined.

(** C8 as stated fails when a shutdown is requested while the event is
    pending: the OPEN is received, the disable signal wins the [select],
    and the handler returns Disabled, not Idle, having emitted no
    event. *)
Lemma C8_counterexample :
  @established Wire.codec
    (Sample.start (set_s Sample.f0 EstablishedState)
       [Recv (MsgOpen (Sample.peerOpen 90)); Disable])
  = Done DisabledState
      {| fsm := set_s Sample.f0 EstablishedState; schedule := [];
         trace := [HoldTimerDrain; CleanupConn] |}.
Proof. reflexivity. Qed.

(** ** Shutdown *)

(** A disable request that arrives while the driver offers its transition
    event ends the driver on the spot: [loop] echoes and returns, and the
    state stays what it was. *)
Lemma loop_disable_at_emit `{Codec} (f : standardFSM) (rest : list choice)
  (tr : list effect) :
  s f <> DisabledState ->
  loop {| fsm := f; schedule := Disable :: rest; trace := tr |}
  = Done tt {| fsm := f; schedule := rest; trace := tr ++ [DisableEcho] |}.
Proof.
  intros Hs. unfold loop. cbn [schedule List.length loopN].
  unfold mbind, getF, next, tell, mret. cbn [fsm schedule trace].
  destruct (s f); [contradiction | reflexivity ..].
Qed.

(** C1 fails on the code. [shut] called on a fresh FSM while the driver
    waits to emit its first transition event: the driver echoes and
    returns with the state still Idle, and a second [shut] finds a state
    other than Disabled and no driver to receive its send. *)
Theorem C1_driver_exits_outside_Disabled :
  @loop Wire.codec (Sample.start Sample.f0 [Disable])
  = Done tt {| fsm := Sample.f0; schedule := []; trace := [DisableEcho] |}
  /\ s Sample.f0 = IdleState
  /\ shut Sample.f0 false = ShutBlocksForever.
Proof. repeat split. Qed.


(** * Further properties of the driver *)

(** ** Reasoning rules for [run] *)

Lemma fsmRel_refl (f : standardFSM) : fsmRel f f.
Proof. unfold fsmRel. repeat split; auto; lia. Qed.

Lemma fsmRel_trans (f1 f2 f3 : standardFSM) :
  fsmRel f1 f2 -> fsmRel f2 f3 -> fsmRel f1 f3.
Proof.
  unfold fsmRel.
  intros (Hn & Hl & Hs & Hh & Hk & Hm) (Hn' & Hl' & Hs' & Hh' & Hk' & Hm').
  repeat split; try congruence; [lia | auto | lia].
Qed.

Lemma run_ret {A} (a : A) (Q : A -> list effect -> list choice -> Prop) :
  Q a [] [] -> run (mret a) Q.
Proof.
  intros HQ w. cbn. exists [], []. rewrite app_nil_r.
  refine (conj _ (conj _ (conj _ _))); auto using fsmRel_refl.
Qed.

Lemma run_bind {A B} (m : M A) (k : A -> M B)
  (Q : B -> list effect -> list choice -> Prop) :
  run m (fun a tr1 u1 =>
           run (k a) (fun b tr2 u2 => Q b (tr1 ++ tr2) (u1 ++ u2))) ->
  run (mbind m k) Q.
Proof.
  intros Hm w. unfold mbind. specialize (Hm w).
  destruct (m w) as [a w1|t w1|w1]; [|exact Hm|exact Hm].
  destruct Hm as (tr1 & u1 & Htr1 & Hu1 & Hrel1 & Hk).
  specialize (Hk w1).
  destruct (k a w1) as [b w2|t w2|w2].
  - destruct Hk as (tr2 & u2 & Htr2 & Hu2 & Hrel2 & HQ).
    exists (tr1 ++ tr2), (u1 ++ u2).
    rewrite Htr2, Htr1, Hu1, Hu2, <- !app_assoc.
    refine (conj _ (conj _ (conj _ _))); eauto using fsmRel_trans.
  - destruct Hk as [Hp Hrel2]. split; eauto using fsmRel_trans.
  - eauto using fsmRel_trans.
Qed.

Lemma run_weaken {A} (m : M A)
  (Q Q' : A -> list effect -> list choice -> Prop) :
  run m Q -> (forall a tr u, Q a tr u -> Q' a tr u) -> run m Q'.
Proof.
  intros Hm Himp w. specialize (Hm w).
  destruct (m w) as [a w1|t w1|w1]; [|exact Hm|exact Hm].
  destruct Hm as (tr & u & Htr & Hu & Hrel & HQ).
  exists tr, u. auto.
Qed.

Lemma run_tell (e : effect) (Q : unit -> list effect -> list choice -> Prop) :
  Q tt [e] [] -> run (tell e) Q.
Proof.
  intros HQ w. cbn. exists [e], [].
  refine (conj _ (conj _ (conj _ _))); auto using fsmRel_refl.
Qed.

Lemma run_next (Q : choice -> list effect -> list choice -> Prop) :
  (forall c, Q c [] [c]) -> run next Q.
Proof.
  intros HQ w. unfold next. destruct (schedule w) as [|c rest] eqn:Hs.
  - apply fsmRel_refl.
  - exists [], [c]. cbn. rewrite app_nil_r.
    refine (conj _ (conj _ (conj _ _))); auto using fsmRel_refl.
Qed.

Lemma run_getF (Q : standardFSM -> list effect -> list choice -> Prop) :
  (forall f, Q f [] []) -> run getF Q.
Proof.
  intros HQ w. cbn. exists [], []. rewrite app_nil_r.
  refine (conj _ (conj _ (conj _ _))); auto using fsmRel_refl.
Qed.

Lemma run_stuck {A} (Q : A -> list effect -> list choice -> Prop) :
  run stuck Q.
Proof. intros w. apply fsmRel_refl. Qed.

Lemma run_panic {A} (t : string)
  (Q : A -> list effect -> list choice -> Prop) :
  codecPanic t -> run (panic t) Q.
Proof. intros Ht w. split; [exact Ht | apply fsmRel_refl]. Qed.

(** ** What [validateOpen] does to the FSM record *)

Lemma fsmRel_reduceHoldTime (f : standardFSM) (p : Z) :
  3 <= p -> fsmRel f (reduceHoldTime f p).
Proof.
  intros Hp. unfold fsmRel.
  rewrite neighbor_reduceHoldTime, s_reduceHoldTime, holdTime_reduceHoldTime.
  repeat split;
    [| lia | apply keepAliveTime_reduceHoldTime | unfold Second; lia].
  unfold reduceHoldTime. now destruct (p * Second <? holdTime f).
Qed.

Lemma fsmRel_validateOpen `{Codec} (f : standardFSM) (msg : openMessage.t) :
  fsmRel f (fst (validateOpen f msg)).
Proof.
  rewrite validateOpen_fsm.
  destruct (Rules.firstSome _) eqn:Hrules; [apply fsmRel_refl|].
  apply fsmRel_reduceHoldTime.
  unfold Rules.rule1, Rules.rule2, Rules.rule3 in Hrules.
  destruct (Z.ltb_spec (openMessage.holdTime msg) 3); [|assumption].
  destruct (openMessage.version msg =? 4); [|discriminate].
  cbn [Rules.firstSome] in Hrules.
  destruct (openMessage.asn msg =? asTrans); cbn in Hrules;
    [discriminate|].
  destruct (_ =? _); discriminate.
Qed.

Lemma validateOpen_panic `{Codec} (f : standardFSM) (msg : openMessage.t)
  (t : string) :
  snd (validateOpen f msg) = Panic t -> codecPanic t.
Proof.
  unfold validateOpen, codecPanic.
  repeat match goal with
         | |- context [if ?c then _ else _] => destruct c; cbn [snd]
         | |- context [match scanOptParams ?a ?b ?c with _ => _ end] =>
             destruct (scanOptParams a b c) as [[? ?]|?]; cbn [snd]
         | |- context [match serializeCapability ?c with _ => _ end] =>
             destruct (serializeCapability c); cbn [snd]
         end;
    intros Hp; try discriminate Hp.
  injection Hp as <-. auto.
Qed.

Lemma run_validateOpenM `{Codec} (open : openMessage.t)
  (Q : option errWithNotification -> list effect -> list choice -> Prop) :
  (forall r, Q r [] []) -> run (validateOpenM open) Q.
Proof.
  intros HQ w. unfold validateOpenM, mbind, getF, putF, mret, panic.
  pose proof (fsmRel_validateOpen (fsm w) open) as Hrel.
  pose proof (validateOpen_panic (fsm w) open) as Hpanic.
  destruct (validateOpen (fsm w) open) as [f' [r|t]];
    cbn [fst snd fsm schedule trace] in *.
  - exists [], []. rewrite app_nil_r.
    refine (conj _ (conj _ (conj _ _))); auto.
  - split; auto.
Qed.

(** ** The state handlers, one by one *)

Ltac run_step :=
  cbv beta;
  first
    [ apply run_validateOpenM; intros ?
    | apply run_bind
    | apply run_ret
    | apply run_tell
    | apply run_next; intros ?
    | apply run_getF; intros ?
    | apply run_stuck
    | apply run_panic; unfold codecPanic; tauto
    | match goal with
      | |- run (match ?x with _ => _ end) _ => destruct x
      end ].

Ltac in_list := repeat (first [left; reflexivity | right]).

Ltac post_leaf :=
  unfold handlerPost;
  split;
  [ unfold Rules.allowedEdges, Rules.allStates; cbn; in_list
  | split;
    [ cbn; lia
    | split;
      [ intros Hd; try discriminate Hd; cbn; in_list
      | cbn; intros Hin; try reflexivity; exfalso;
        intuition discriminate ] ] ].

Lemma run_connect `{Codec} : run connect (handlerPost ConnectState).
Proof.
  unfold connect, sendOpen, emitOr, cleanupConn, connWrite.
  repeat run_step; post_leaf.
Qed.

Lemma run_idle `{Codec} : run idle (handlerPost IdleState).
Proof. unfold idle. repeat run_step; post_leaf. Qed.

Lemma run_active `{Codec} : run active (handlerPost ActiveState).
Proof. unfold active. repeat run_step; post_leaf. Qed.

Ltac unfold_helpers :=
  unfold handleErr, handleHoldTimerExpired, sendCease, sendHoldTimerExpired,
    sendNotification, sendKeepAlive, drainAndResetHoldTimer, drainHoldTimer,
    cleanupConn, connWrite, emitOr, config.

Lemma run_openSent `{Codec} : run openSent (handlerPost OpenSentState).
Proof. unfold openSent. unfold_helpers. repeat run_step; post_leaf. Qed.

Lemma run_openConfirm `{Codec} :
  run openConfirm (handlerPost OpenConfirmState).
Proof. unfold openConfirm. unfold_helpers. repeat run_step; post_leaf. Qed.

(** A turn of [established] that does not return leaves the connection in
    place; the handler as a whole gives it up. *)
Lemma run_establishedLoop `{Codec} (fuel : nat) :
  run (establishedLoop fuel) (handlerPost EstablishedState).
Proof.
  induction fuel as [|fuel IH]; [apply run_stuck|].
  cbn [establishedLoop]. unfold_helpers.
  repeat run_step;
    try (eapply run_weaken; [exact IH|];
         intros st' tr u (Hedge & Hconn & Hdis);
         refine (conj Hedge (conj _ _));
         [ cbn; exact Hconn
         | cbn; split;
           [ intros Hd; repeat right; apply Hdis, Hd
           | intros Hin; apply Hdis;
             repeat (destruct Hin as [Hin|Hin]; [discriminate Hin|]);
             exact Hin ] ]);
    post_leaf.
Qed.

Lemma run_established `{Codec} :
  run established (handlerPost EstablishedState).
Proof. intros w. apply run_establishedLoop. Qed.

(** Every handler returns along an edge of the transition table, owns a
    connection afterwards exactly when the state it returns has one, and
    returns DisabledState only when it received a disable request. *)
Lemma run_handler `{Codec} (st : FSMState) :
  st <> DisabledState -> run (handler st) (handlerPost st).
Proof.
  destruct st; cbn [handler]; intros Hst;
    [ contradiction | apply run_idle | apply run_connect | apply run_active
    | apply run_openSent | apply run_openConfirm | apply run_established ].
Qed.

(** ** The driver loop *)

Lemma driverRel_refl (f : standardFSM) : driverRel f f.
Proof. unfold driverRel. repeat split; auto; lia. Qed.

Lemma driverRel_trans (f1 f2 f3 : standardFSM) :
  driverRel f1 f2 -> driverRel f2 f3 -> driverRel f1 f3.
Proof.
  unfold driverRel.
  intros (Hn & Hl & Hh & Hk & Hm) (Hn' & Hl' & Hh' & Hk' & Hm').
  repeat split; try congruence; [lia | auto | lia].
Qed.

Lemma fsmRel_driverRel (f f' : standardFSM) : fsmRel f f' -> driverRel f f'.
Proof. unfold fsmRel, driverRel. tauto. Qed.

Lemma driverRel_set_s (f : standardFSM) (st : FSMState) :
  driverRel f (set_s f st).
Proof. unfold driverRel, keepAliveInv. cbn. repeat split; auto; lia. Qed.

Lemma conns_app (tr1 tr2 : list effect) :
  conns (tr1 ++ tr2) = conns tr1 + conns tr2.
Proof. induction tr1 as [|e tr1 IH]; cbn [conns app]; lia. Qed.

Lemma FSMState_eqb_Disabled (st : FSMState) :
  FSMState_eqb st DisabledState = true <-> st = DisabledState.
Proof. destruct st; cbn; split; congruence. Qed.

Lemma FSMState_eq_or (st : FSMState) :
  st = DisabledState \/ st <> DisabledState.
Proof. destruct st; auto; right; discriminate. Qed.

(** The master invariant of [loop], for every fuel. *)
Lemma loopN_spec `{Codec} (fuel : nat) (w : world) :
  loopPost w (loopN fuel w).
Proof.
  revert w. induction fuel as [|fuel IH]; intros w.
  { split; [apply driverRel_refl | exact I]. }
  cbn [loopN]. unfold mbind at 1. unfold getF at 1.
  destruct (s (fsm w)) eqn:Hs.
  { (* the sink *)
    cbn [FSMState_eqb negb]. unfold mbind, tell, mret.
    cbn [outWorld fsm schedule trace]. split; [apply driverRel_refl|].
    exists [], []. cbn [fsm schedule trace app conns].
    rewrite Hs. repeat split; congruence. }
  all: cbn [FSMState_eqb negb].
  all: unfold mbind at 1; unfold next at 1.
  all: destruct (schedule w) as [|c rest] eqn:Hsched;
    [split; [apply driverRel_refl | exact I]|].
  all: destruct c;
    try (split; [apply driverRel_refl | exact I]).
  (* a disable request at the emit: echo and return *)
  all: try (unfold mbind, tell, mret; cbn [outWorld fsm schedule trace];
            split; [apply driverRel_refl|];
            exists [], [Disable]; cbn [fsm schedule trace app conns];
            rewrite Hs, Hsched;
            repeat split; try lia; intros _; left; reflexivity).
  (* the event is sent: run the handler, move, and go round again *)
  all: unfold mbind at 1; unfold tell at 1; cbn [fsm schedule trace].
  all: unfold mbind at 1.
  all: match goal with
       | |- context [handler ?st ?w1] =>
           pose proof (run_handler st ltac:(discriminate) w1) as Hh;
           destruct (handler st w1) as [st' w2|t w2|w2]
       end.
  all: cbn [fsm schedule trace] in Hh.
  (* the handler panicked, or is blocked *)
  all: try (destruct Hh as [Hp Hrel];
            split; [apply fsmRel_driverRel, Hrel | exact Hp]).
  all: try (split; [apply fsmRel_driverRel, Hh | exact I]).
  (* the handler returned *)
  all: destruct Hh as (tr1 & u1 & Htr1 & Hu1 & Hrel & Hedge & Hconn & Hdis).
  all: pose proof Hrel as (Hn & Hl & Hs2 & Hh2 & Hk2 & Hm2).
  all: unfold mbind at 1; unfold transitionM, mbind at 1, getF;
    unfold transitionAndPanicOnErr.
  all: rewrite transition_allowed by (rewrite Hs2, Hs; exact Hedge).
  all: unfold putF; cbn [fsm schedule trace].
  all: match goal with
       | |- loopPost _ (loopN ?n ?w3) =>
           specialize (IH w3); destruct (loopN n w3) as [[] w4|t w4|w4]
       end.
  all: destruct IH as [Hrel3 Hpost]; cbn [outWorld fsm schedule trace] in *.
  all: assert (Hrel' : driverRel (fsm w) (fsm w4))
    by (eapply driverRel_trans; [|exact Hrel3];
        eapply driverRel_trans; [|apply driverRel_set_s];
        apply fsmRel_driverRel, Hrel).
  all: split; [exact Hrel'|]; try exact Hpost.
  all: destruct Hpost as (tr3 & u3 & Htr3 & Hu3 & Hconn3 & Hin3).
  all: cbn [s set_s] in Hconn3, Hin3.
  all: match type of Htr1 with
       | _ = (_ ++ [?e]) ++ _ =>
           exists (e :: tr1 ++ tr3), (EventSent :: u1 ++ u3)
       end.
  all: split;
    [rewrite Htr3, Htr1; cbn [app]; rewrite <- ?app_assoc; cbn [app];
     reflexivity|].
  all: split;
    [rewrite Hsched, Hu1, Hu3; cbn [app]; rewrite <- ?app_assoc;
     reflexivity|].
  all: split;
    [cbn [conns connDelta]; rewrite conns_app, Hconn, Hconn3, Hs; lia|].
  all: intros _; right; apply in_or_app.
  all: destruct (FSMState_eq_or st') as [Hd|Hd];
    [left; apply Hdis, Hd | right; apply Hin3, Hd].
Qed.

(** ** What the handlers guarantee *)

(** X1. Whatever state a handler returns, the transition guard accepts it
    from the state the handler was dispatched in: the assertion of
    [transitionAndPanicOnErr] never fires on a handler's result. *)
Theorem X1_handler_result_passes_guard `{Codec} (w w' : world)
  (st' : FSMState) :
  s (fsm w) <> DisabledState ->
  handler (s (fsm w)) w = Done st' w' ->
  In (s (fsm w), st') Rules.allowedEdges
  /\ transitionAndPanicOnErr (fsm w') st' = Return (set_s (fsm w') st').
Proof.
  intros Hst Hrun. pose proof (run_handler (s (fsm w)) Hst w) as Hh.
  rewrite Hrun in Hh.
  destruct Hh as (tr & u & _ & _ & (_ & _ & Hs & _) & Hedge & _).
  split; [exact Hedge|].
  unfold transitionAndPanicOnErr.
  now rewrite transition_allowed by (rewrite Hs; exact Hedge).
Qed.

(** A refused dial in Connect: the handler returns Active, which the
    guard accepts from Connect. *)
Lemma X1_handler_result_passes_guard_witness :
  In (ConnectState, ActiveState) Rules.allowedEdges
  /\ transitionAndPanicOnErr (set_s Sample.f0 ConnectState) ActiveState
     = Return (set_s (set_s Sample.f0 ConnectState) ActiveState).
Proof.
  refine (@X1_handler_result_passes_guard Wire.codec
            (Sample.start (set_s Sample.f0 ConnectState)
               [DialErr "connection refused"; EventSent])
            {| fsm := set_s Sample.f0 ConnectState; schedule := [];
               trace := _ |}
            ActiveState _ _).
  - discriminate.
  - reflexivity.
Defined.

(** X2. A handler returns DisabledState exactly when it received a
    disable request: no handler disables the FSM on its own, and none
    swallows a disable request, at whichever [select] it arrives. *)
Theorem X2_handler_disabled_iff_disable `{Codec} (st st' : FSMState)
  (w w' : world) :
  st <> DisabledState ->
  handler st w = Done st' w' ->
  exists used,
    schedule w = used ++ schedule w'
    /\ (st' = DisabledState <-> In Disable used).
Proof.
  intros Hst Hrun. pose proof (run_handler st Hst w) as Hh.
  rewrite Hrun in Hh.
  destruct Hh as (tr & u & _ & Hu & _ & _ & _ & Hdis).
  exists u. split; assumption.
Qed.

(** A disable request that arrives while OpenSent offers the event of a
    received NOTIFICATION. *)
Lemma X2_handler_disabled_iff_disable_witness :
  exists used,
    [Recv (MsgNotification
             {| Code := NotifErrCodeCease; Subcode := NotifErrSubcodeZero;
                Data := [] |}); Disable; EventSent]
    = used ++ [EventSent]
    /\ (DisabledState = DisabledState <-> In Disable used).
Proof.
  refine (@X2_handler_disabled_iff_disable Wire.codec OpenSentState
            DisabledState
            (Sample.start (set_s Sample.f0 OpenSentState)
               [Recv (MsgNotification
                        {| Code := NotifErrCodeCease;
                           Subcode := NotifErrSubcodeZero; Data := [] |});
                Disable; EventSent])
            {| fsm := set_s Sample.f0 OpenSentState;
               schedule := [EventSent]; trace := _ |} _ _).
  - discriminate.
  - reflexivity.
Defined.

(** X3. Across a handler the FSM gains a connection exactly when it moves
    from a state without one into OpenSent, and gives its connection up
    exactly when it leaves OpenSent, OpenConfirm or Established for a
    state without one: installs minus [cleanupConn] calls equal the
    difference of [live] between the state returned and the state
    handled.  No path leaks a connection or tears one down twice. *)
Theorem X3_handler_connection_ownership `{Codec} (st st' : FSMState)
  (w w' : world) :
  st <> DisabledState ->
  handler st w = Done st' w' ->
  exists added,
    trace w' = trace w ++ added
    /\ conns added = live st' - live st.
Proof.
  intros Hst Hrun. pose proof (run_handler st Hst w) as Hh.
  rewrite Hrun in Hh.
  destruct Hh as (tr & u & Htr & _ & _ & _ & Hconn & _).
  exists tr. split; assumption.
Qed.

(** Established, hold timer expired: one teardown. *)
Lemma X3_handler_connection_ownership_witness :
  exists added,
    [ConnWrite
       (Wire.notificationBytes
          {| Code := NotifErrCodeHoldTimerExpired;
             Subcode := NotifErrSubcodeZero; Data := [] |});
     Emit (EventNeighborHoldTimerExpired Sample.cfg); CleanupConn]
    = [] ++ added
    /\ conns added = live IdleState - live EstablishedState.
Proof.
  refine (@X3_handler_connection_ownership Wire.codec EstablishedState
            IdleState
            (Sample.start (set_s Sample.f0 EstablishedState)
               [HoldTimerFired; WriteOk; EventSent])
            {| fsm := set_s Sample.f0 EstablishedState; schedule := [];
               trace := _ |} _ _).
  - discriminate.
  - reflexivity.
Defined.

(** ** What the driver guarantees *)

(** X4. The driver never panics on a state transition.  If [loop] ends
    in a panic at all, it is one of the three panics on a failed
    serialization of a message the FSM built itself. *)
Theorem X4_driver_panics_only_in_serializer `{Codec} (w w' : world)
  (t : string) :
  loop w = Panicked t w' ->
  codecPanic t /\ t <> "bug in FSM state transition"%string.
Proof.
  intros Hrun. unfold loop in Hrun.
  pose proof (loopN_spec (S (List.length (schedule w))) w) as [_ Hp].
  rewrite Hrun in Hp. split; [exact Hp|].
  destruct Hp as [-> | [-> | ->]]; discriminate.
Qed.

(** A codec that cannot serialize a KEEPALIVE: the driver panics on it
    after the peer's OPEN is accepted. *)
Lemma X4_driver_panics_only_in_serializer_witness :
  codecPanic "bug serializing keepalive message"
  /\ "bug serializing keepalive message"%string
     <> "bug in FSM state transition"%string.
Proof.
  refine (@X4_driver_panics_only_in_serializer
            {| serializeOpen o := inl (Wire.openBytes o);
               serializeKeepAlive := inr (ErrPlain "no keepalive");
               serializeNotification n := inl (Wire.notificationBytes n);
               serializeCapability c := inl (Wire.capBytes c);
               messageTypeString := Wire.typeString |}
            (Sample.start Sample.f0
               [EventSent; EventSent; DialOk; WriteOk; EventSent;
                Recv (MsgOpen (Sample.peerOpen 30))])
            _ "bug serializing keepalive message" _).
  vm_compute. reflexivity.
Defined.

(** X5. The driver returns only after a disable request, and the last
    thing it does is the echo on [f.disable] that releases [shut]: a
    driver started outside DisabledState never stops on its own. *)
Theorem X5_driver_stops_only_on_disable `{Codec} (w w' : world) :
  s (fsm w) <> DisabledState ->
  loop w = Done tt w' ->
  In Disable (schedule w)
  /\ exists added used,
       trace w' = trace w ++ added ++ [DisableEcho]
       /\ schedule w = used ++ schedule w'
       /\ In Disable used.
Proof.
  intros Hst Hrun. unfold loop in Hrun.
  pose proof (loopN_spec (S (List.length (schedule w))) w) as [_ Hp].
  rewrite Hrun in Hp.
  destruct Hp as (tr & u & Htr & Hu & _ & Hin).
  split.
  - rewrite Hu. apply in_or_app. left. auto.
  - exists tr, u. auto.
Qed.

Lemma X5_driver_stops_only_on_disable_witness :
  In Disable Sample.reconnect
  /\ exists added used,
       trace (outWorld (@loop Wire.codec
                          (Sample.start Sample.f0 Sample.reconnect)))
       = [] ++ added ++ [DisableEcho]
       /\ Sample.reconnect
          = used ++ schedule (outWorld (@loop Wire.codec
                                (Sample.start Sample.f0 Sample.reconnect)))
       /\ In Disable used.
Proof.
  refine (@X5_driver_stops_only_on_disable Wire.codec
            (Sample.start Sample.f0 Sample.reconnect) _ _ _).
  - discriminate.
  - vm_compute. reflexivity.
Defined.

(** X6. When the driver returns, the FSM owns a connection exactly if
    the state it stopped in is OpenSent, OpenConfirm or Established: in
    particular a driver that stops in DisabledState has torn down every
    connection it installed. *)
Theorem X6_driver_connection_balance `{Codec} (w w' : world) :
  conns (trace w) = live (s (fsm w)) ->
  loop w = Done tt w' ->
  conns (trace w') = live (s (fsm w'))
  /\ (s (fsm w') = DisabledState -> conns (trace w') = 0).
Proof.
  intros Hinit Hrun. unfold loop in Hrun.
  pose proof (loopN_spec (S (List.length (schedule w))) w) as [_ Hp].
  rewrite Hrun in Hp.
  destruct Hp as (tr & u & Htr & _ & Hconn & _).
  assert (Hbal : conns (trace w') = live (s (fsm w'))).
  { rewrite Htr, !conns_app, Hconn, Hinit. cbn. lia. }
  split; [exact Hbal|]. intros Hd. now rewrite Hbal, Hd.
Qed.

Lemma X6_driver_connection_balance_witness :
  conns (trace (outWorld (@loop Wire.codec
                            (Sample.start Sample.f0 Sample.reconnect))))
  = live (s (fsm (outWorld (@loop Wire.codec
                               (Sample.start Sample.f0 Sample.reconnect)))))
  /\ (s (fsm (outWorld (@loop Wire.codec
                          (Sample.start Sample.f0 Sample.reconnect))))
      = DisabledState ->
      conns (trace (outWorld (@loop Wire.codec
                                (Sample.start Sample.f0 Sample.reconnect))))
      = 0).
Proof.
  refine (@X6_driver_connection_balance Wire.codec
            (Sample.start Sample.f0 Sample.reconnect) _ _ _).
  - reflexivity.
  - vm_compute. reflexivity.
Defined.

(** X7. However long the driver has run and however it ends (returned,
    panicked or blocked in a [select]), the hold time of the FSM is at
    most the configured one and at least 3 s unless less was configured,
    the keepalive period is a third of the hold time truncated to whole
    seconds, and configuration and local ASN are those [newFSM] was
    given. *)
Theorem X7_driver_hold_time_bounded `{Codec} (cfg : NeighborConfig)
  (la : Z) (sched : list choice) :
  let w' := outWorld (loop {| fsm := newFSM cfg la; schedule := sched;
                              trace := [] |}) in
  holdTime (fsm w') <= HoldTime cfg
  /\ Z.min (HoldTime cfg) (3 * Second) <= holdTime (fsm w')
  /\ keepAliveInv (fsm w')
  /\ neighbor (fsm w') = cfg
  /\ localASN (fsm w') = la.
Proof.
  cbv zeta. unfold loop.
  match goal with
  | |- context [loopN ?n ?w] =>
      pose proof (loopN_spec n w) as [(Hn & Hl & Hh & Hk & Hm) _];
      destruct (loopN n w) as [[] w'|t w'|w']
  end; cbn [outWorld fsm newFSM neighbor localASN holdTime] in *;
    (repeat split;
     [exact Hh | exact Hm | apply Hk; reflexivity | exact Hn | exact Hl]).
Qed.

(** ** Further properties of the OPEN validator *)

(** X8. [validateOpen] touches nothing of the FSM but the hold time and
    the keepalive period: configuration, local ASN and state are as
    before; the hold time does not grow, and does not fall below 3 s
    unless it was below already; and the keepalive period stays a third
    of the hold time, truncated to whole seconds. *)
Theorem X8_validateOpen_touches_only_hold_time `{Codec} (f : standardFSM)
  (msg : openMessage.t) :
  neighbor (fst (validateOpen f msg)) = neighbor f
  /\ localASN (fst (validateOpen f msg)) = localASN f
  /\ s (fst (validateOpen f msg)) = s f
  /\ holdTime (fst (validateOpen f msg)) <= holdTime f
  /\ (keepAliveInv f -> keepAliveInv (fst (validateOpen f msg)))
  /\ Z.min (holdTime f) (3 * Second) <= holdTime (fst (validateOpen f msg)).
Proof. exact (fsmRel_validateOpen f msg). Qed.

Lemma firstSome_paramFailure_None (peerASN : Z) (ps : list optParam) :
  Rules.firstSome (map (Rules.paramFailure peerASN) ps) = None ->
  forall p, In p ps ->
    exists caps,
      p = capabilityOptParam caps
      /\ existsb (Rules.wrongFourOctetAs peerASN) caps = false.
Proof.
  induction ps as [|q ps IH]; intros Hnone p Hin; [contradiction|].
  cbn [map Rules.firstSome] in Hnone.
  destruct (Rules.paramFailure peerASN q) eqn:Hq; [discriminate|].
  destruct Hin as [<- | Hin]; [|now apply IH].
  destruct q as [caps|t v]; [|discriminate].
  exists caps. split; [reflexivity|].
  cbn in Hq. now destruct (existsb _ caps).
Qed.

(** The rules an accepted OPEN has passed. *)
Lemma validateOpen_accepted_rules `{Codec} (f : standardFSM)
  (msg : openMessage.t) :
  snd (validateOpen f msg) = Return None ->
  Rules.rule5 msg = None
  /\ Rules.rule6_7 (ASN (neighbor f)) msg = None
  /\ Rules.bgpLsAfFound msg = true
  /\ (openMessage.asn msg =? asTrans) && negb (Rules.fourOctetAsFound msg)
     = false.
Proof.
  intros Hacc.
  pose proof (validateOpen_accepted_rules_1_3 f msg Hacc) as H13.
  revert Hacc.
  unfold validateOpen, Rules.rule1, Rules.rule2, Rules.rule3, Rules.rule5,
    Rules.rule6_7, Rules.bgpLsAfFound, Rules.fourOctetAsFound,
    Rules.announced, uint16 in *.
  destruct (openMessage.version msg =? 4); [|discriminate].
  cbn [negb Rules.firstSome] in *.
  destruct (openMessage.asn msg =? asTrans); cbn [negb andb] in *.
  2: destruct (openMessage.asn msg =? ASN (neighbor f) mod 65536);
       [|discriminate]; cbn [negb Rules.firstSome] in *.
  all: destruct (openMessage.holdTime msg <? 3); [discriminate|].
  all: destruct (openMessage.bgpID msg =? 0); cbn [snd];
         [discriminate|].
  all: rewrite neighbor_reduceHoldTime.
  all: pose proof (scanOptParams_flags (ASN (neighbor f))
                     (openMessage.optParams msg) false false) as Hscan.
  all: destruct (scanOptParams _ _ _) as [[fa fb]|e]; cbn [snd];
         [|discriminate].
  all: destruct Hscan as (Hnone & Hfa & Hfb); cbn [orb] in Hfa, Hfb;
         subst fa fb.
  all: destruct (existsb Rules.isBgpLs
                   (flat_map Rules.capsOf (openMessage.optParams msg)));
         cbn [negb]; [|destruct serializeCapability; discriminate].
  all: destruct (existsb Rules.isFourOctetAs
                   (flat_map Rules.capsOf (openMessage.optParams msg)));
         cbn [negb snd]; try discriminate; auto.
Qed.

(** X9. An OPEN that [validateOpen] accepts has version 4, an AS field
    that is AS_TRANS or the configured ASN as a u16, a hold time of at
    least 3, a non-zero BGP identifier and only capability parameters; it
    announces Multiprotocol(BGP-LS, BGP-LS); every Four-Octet-AS
    capability it announces carries the configured ASN; and if its AS
    field is AS_TRANS it announces one. *)
Theorem X9_validateOpen_accepted_sound `{Codec} (f : standardFSM)
  (msg : openMessage.t) :
  snd (validateOpen f msg) = Return None ->
  openMessage.version msg = 4
  /\ (openMessage.asn msg = asTrans
      \/ openMessage.asn msg = uint16 (ASN (neighbor f)))
  /\ 3 <= openMessage.holdTime msg
  /\ openMessage.bgpID msg <> 0
  /\ (forall p, In p (openMessage.optParams msg) ->
        exists caps, p = capabilityOptParam caps)
  /\ In (capMultiproto BgpLsAFI BgpLsSAFI) (Rules.announced msg)
  /\ (forall a, In (capFourOctetAs a) (Rules.announced msg) ->
        a = ASN (neighbor f))
  /\ (openMessage.asn msg = asTrans ->
      In (capFourOctetAs (ASN (neighbor f))) (Rules.announced msg)).
Proof.
  intros Hacc.
  pose proof (validateOpen_accepted_rules_1_3 f msg Hacc) as H13.
  pose proof (validateOpen_accepted_rules f msg Hacc)
    as (H5 & H67 & Hls & H9).
  unfold Rules.rule1, Rules.rule2, Rules.rule3, Rules.rule5, uint16 in *.
  destruct (Z.eqb_spec (openMessage.version msg) 4) as [Hv|];
    [|discriminate].
  cbn [Rules.firstSome] in H13.
  assert (Hasn : openMessage.asn msg = asTrans
                 \/ openMessage.asn msg = ASN (neighbor f) mod 65536).
  { destruct (Z.eqb_spec (openMessage.asn msg) asTrans); [now left|].
    destruct (Z.eqb_spec (openMessage.asn msg)
                (ASN (neighbor f) mod 65536)); [now right|discriminate]. }
  assert (Hhold : 3 <= openMessage.holdTime msg).
  { destruct (Z.ltb_spec (openMessage.holdTime msg) 3); [|assumption].
    destruct (openMessage.asn msg =? asTrans); cbn in H13;
      [discriminate|]. destruct (_ =? _); discriminate. }
  assert (Hid : openMessage.bgpID msg <> 0)
    by (destruct (Z.eqb_spec (openMessage.bgpID msg) 0);
        [discriminate | assumption]).
  pose proof (firstSome_paramFailure_None _ _ H67) as Hparams.
  assert (Hfour : forall a, In (capFourOctetAs a) (Rules.announced msg) ->
                            a = ASN (neighbor f)).
  { intros a Ha. unfold Rules.announced in Ha.
    apply in_flat_map in Ha. destruct Ha as (p & Hp & Hin).
    destruct (Hparams p Hp) as (caps & -> & Hwrong). cbn in Hin.
    destruct (Z.eqb_spec a (ASN (neighbor f))) as [|Hne]; [assumption|].
    assert (Hex : existsb (Rules.wrongFourOctetAs (ASN (neighbor f))) caps
                  = true).
    { apply existsb_exists. exists (capFourOctetAs a). split; [exact Hin|].
      cbn. now destruct (Z.eqb_spec a (ASN (neighbor f))). }
    congruence. }
  repeat split; try assumption.
  - intros p Hp. destruct (Hparams p Hp) as (caps & -> & _). eauto.
  - unfold Rules.bgpLsAfFound in Hls. apply existsb_exists in Hls.
    destruct Hls as (c & Hc & Hb).
    destruct c as [a|afi safi|k v]; try discriminate Hb.
    cbn in Hb. apply andb_prop in Hb. destruct Hb as [Ha Hb].
    apply Z.eqb_eq in Ha, Hb. now subst.
  - intros Htrans. rewrite Htrans in H9. cbn in H9.
    apply negb_false_iff in H9.
    unfold Rules.fourOctetAsFound in H9. apply existsb_exists in H9.
    destruct H9 as (c & Hc & Hb).
    destruct c as [a|afi safi|k v]; try discriminate Hb.
    now rewrite <- (Hfour a Hc).
Qed.

Lemma X9_validateOpen_accepted_sound_witness :
  openMessage.version (Sample.peerOpen 90) = 4
  /\ (openMessage.asn (Sample.peerOpen 90) = asTrans
      \/ openMessage.asn (Sample.peerOpen 90)
         = uint16 (ASN (neighbor Sample.f0)))
  /\ 3 <= openMessage.holdTime (Sample.peerOpen 90)
  /\ openMessage.bgpID (Sample.peerOpen 90) <> 0
  /\ (forall p, In p (openMessage.optParams (Sample.peerOpen 90)) ->
        exists caps, p = capabilityOptParam caps)
  /\ In (capMultiproto BgpLsAFI BgpLsSAFI)
       (Rules.announced (Sample.peerOpen 90))
  /\ (forall a, In (capFourOctetAs a)
                  (Rules.announced (Sample.peerOpen 90)) ->
        a = ASN (neighbor Sample.f0))
  /\ (openMessage.asn (Sample.peerOpen 90) = asTrans ->
      In (capFourOctetAs (ASN (neighbor Sample.f0)))
        (Rules.announced (Sample.peerOpen 90))).
Proof.
  apply (@X9_validateOpen_accepted_sound Wire.codec Sample.f0
           (Sample.peerOpen 90)).
  reflexivity.
Defined.

Lemma scanCaps_filter_relevant (peerASN : Z) (caps : list capability)
  (flags : bool * bool) :
  scanCaps peerASN (filter relevantCap caps) flags
  = scanCaps peerASN caps flags.
Proof.
  revert flags. induction caps as [|c rest IH]; intros flags;
    [reflexivity|].
  destruct c as [a|afi safi|k v];
    cbn [filter relevantCap Rules.isFourOctetAs Rules.isBgpLs orb scanCaps].
  - destruct (negb (a =? peerASN)); [reflexivity | apply IH].
  - destruct ((afi =? BgpLsAFI) && (safi =? BgpLsSAFI)) eqn:Hls;
      cbn [scanCaps]; rewrite ?Hls; apply IH.
  - apply IH.
Qed.

Lemma scanOptParams_prune (peerASN : Z) (ps : list optParam)
  (flags : bool * bool) :
  scanOptParams peerASN (map pruneParam ps) flags
  = scanOptParams peerASN ps flags.
Proof.
  revert flags. induction ps as [|p rest IH]; intros flags; [reflexivity|].
  destruct p as [caps|t v]; cbn [map pruneParam scanOptParams];
    [|reflexivity].
  rewrite scanCaps_filter_relevant.
  destruct (scanCaps peerASN caps flags); [apply IH | reflexivity].
Qed.

(** X10. [validateOpen] looks at no capability but Four-Octet-AS and
    Multiprotocol(BGP-LS, BGP-LS): removing every other capability
    (unknown ones, multiprotocol capabilities of other families) from
    every parameter of an OPEN changes neither the verdict nor the FSM
    the call leaves. *)
Theorem X10_validateOpen_ignores_other_capabilities `{Codec}
  (f : standardFSM) (msg : openMessage.t) :
  validateOpen f
    (withOptParams msg (map pruneParam (openMessage.optParams msg)))
  = validateOpen f msg.
Proof.
  unfold validateOpen, withOptParams.
  cbn [openMessage.version openMessage.asn openMessage.holdTime
       openMessage.bgpID openMessage.optParams].
  now rewrite scanOptParams_prune.
Qed.

Lemma existsb_Permutation {A} (p : A -> bool) (l l' : list A) :
  Permutation l l' -> existsb p l = existsb p l'.
Proof.
  induction 1 as [|x l l' _ IH|x y l|l1 l2 l3 _ IH1 _ IH2];
    cbn [existsb].
  - reflexivity.
  - now rewrite IH.
  - now destruct (p x), (p y).
  - congruence.
Qed.

Lemma scanOptParams_sameUpToOrder (peerASN : Z) (ps ps' : list optParam) :
  Forall2 sameUpToOrder ps ps' ->
  forall flags,
    scanOptParams peerASN ps flags = scanOptParams peerASN ps' flags.
Proof.
  induction 1 as [|p p' ps ps' Hp _ IH]; intros [fa fb]; [reflexivity|].
  destruct p as [caps|t v], p' as [caps'|t' v']; cbn in Hp;
    try contradiction; cbn [scanOptParams]; [|reflexivity].
  rewrite !scanCaps_flags.
  rewrite (existsb_Permutation (Rules.wrongFourOctetAs peerASN) _ _ Hp),
    (existsb_Permutation Rules.isFourOctetAs _ _ Hp),
    (existsb_Permutation Rules.isBgpLs _ _ Hp).
  destruct (existsb (Rules.wrongFourOctetAs peerASN) caps');
    [reflexivity | apply IH].
Qed.

(** X11. The order of the capabilities inside a capability parameter
    does not matter to [validateOpen]: two OPENs whose parameters
    correspond one to one, each pair holding the same capabilities in
    some order, get the same verdict and leave the same FSM. *)
Theorem X11_validateOpen_capability_order `{Codec} (f : standardFSM)
  (msg : openMessage.t) (ps ps' : list optParam) :
  Forall2 sameUpToOrder ps ps' ->
  validateOpen f (withOptParams msg ps)
  = validateOpen f (withOptParams msg ps').
Proof.
  intros Hsame. unfold validateOpen, withOptParams.
  cbn [openMessage.version openMessage.asn openMessage.holdTime
       openMessage.bgpID openMessage.optParams].
  now rewrite (scanOptParams_sameUpToOrder _ ps ps' Hsame).
Qed.

(** The OPEN of the happy path with its two capabilities swapped. *)
Lemma X11_validateOpen_capability_order_witness :
  @validateOpen Wire.codec Sample.f0
    (withOptParams (Sample.peerOpen 90)
       [capabilityOptParam
          [capFourOctetAs 64512; capMultiproto BgpLsAFI BgpLsSAFI]])
  = @validateOpen Wire.codec Sample.f0
      (withOptParams (Sample.peerOpen 90)
         [capabilityOptParam
            [capMultiproto BgpLsAFI BgpLsSAFI; capFourOctetAs 64512]]).
Proof.
  apply (@X11_validateOpen_capability_order Wire.codec).
  constructor; [|constructor]. cbn. apply perm_swap.
Defined.

(** The verdict of [validateOpen] depends on the FSM only through the
    neighbor's configuration. *)
Lemma validateOpen_verdict_config `{Codec} (f1 f2 : standardFSM)
  (msg : openMessage.t) :
  neighbor f1 = neighbor f2 ->
  snd (validateOpen f1 msg) = snd (validateOpen f2 msg).
Proof.
  intros Hcfg. unfold validateOpen.
  rewrite !neighbor_reduceHoldTime, Hcfg.
  repeat match goal with
         | |- context [if ?c then _ else _] => destruct c; cbn [snd]
         | |- context [match scanOptParams ?a ?b ?c with _ => _ end] =>
             destruct (scanOptParams a b c) as [[? ?]|?]; cbn [snd]
         | |- context [match serializeCapability ?c with _ => _ end] =>
             destruct (serializeCapability c); cbn [snd]
         end; reflexivity.
Qed.

Lemma reduceHoldTime_idem (f : standardFSM) (p : Z) :
  reduceHoldTime (reduceHoldTime f p) p = reduceHoldTime f p.
Proof.
  unfold reduceHoldTime at 1.
  rewrite holdTime_reduceHoldTime.
  destruct (Z.ltb_spec (p * Second) (Z.min (holdTime f) (p * Second)));
    [lia | reflexivity].
Qed.

(** X12. Validating the same OPEN a second time gives the same verdict
    and changes nothing more: what the first call did to the hold time
    is all a repeated OPEN can do. *)
Theorem X12_validateOpen_idempotent `{Codec} (f : standardFSM)
  (msg : openMessage.t) :
  validateOpen (fst (validateOpen f msg)) msg
  = (fst (validateOpen f msg), snd (validateOpen f msg)).
Proof.
  pose proof (fsmRel_validateOpen f msg) as (Hn & _).
  rewrite (surjective_pairing (validateOpen (fst (validateOpen f msg)) msg)).
  f_equal.
  - rewrite validateOpen_fsm, Hn. rewrite (validateOpen_fsm f msg).
    destruct (Rules.firstSome _); [reflexivity | apply reduceHoldTime_idem].
  - apply validateOpen_verdict_config. exact Hn.
Qed.

Lemma neighbor_afterOpens `{Codec} (msgs : list openMessage.t)
  (f : standardFSM) :
  neighbor (afterOpens f msgs) = neighbor f.
Proof.
  revert f. induction msgs as [|m msgs IH]; intros f; [reflexivity|].
  cbn [afterOpens fold_left]. fold (afterOpens (fst (validateOpen f m)) msgs).
  rewrite IH. apply fsmRel_validateOpen.
Qed.

(** X13. Over any number of OPENs of the same neighbor that pass rules 1
    to 3 (accepted or refused later), the hold time ends at the minimum
    of the hold time the FSM started with and all the peers' hold times:
    the FSM keeps the lowest value ever offered, in whatever order the
    OPENs came. *)
Theorem X13_hold_time_after_opens `{Codec} (msgs : list openMessage.t)
  (f : standardFSM) :
  (forall m, In m msgs ->
     Rules.firstSome [Rules.rule1 m; Rules.rule2 (ASN (neighbor f)) m;
                      Rules.rule3 m] = None) ->
  holdTime (afterOpens f msgs)
  = fold_right Z.min (holdTime f)
      (map (fun m => openMessage.holdTime m * Second) msgs).
Proof.
  revert f. induction msgs as [|m msgs IH]; intros f Hall; [reflexivity|].
  cbn [afterOpens fold_left map fold_right].
  fold (afterOpens (fst (validateOpen f m)) msgs).
  rewrite IH.
  - rewrite validateOpen_fsm, (Hall m (or_introl eq_refl)).
    rewrite holdTime_reduceHoldTime.
    generalize (map (fun m0 => openMessage.holdTime m0 * Second) msgs).
    intros l. generalize (openMessage.holdTime m * Second) as x.
    generalize (holdTime f) as h.
    induction l as [|y l IHl]; intros h x; cbn [fold_right]; [lia|].
    rewrite IHl. lia.
  - intros m' Hm'.
    replace (neighbor (fst (validateOpen f m))) with (neighbor f)
      by (symmetry; apply fsmRel_validateOpen).
    apply Hall. now right.
Qed.

(** Peers offering 90 s, 30 s, then 90 s again to an FSM configured with
    180 s: the hold time ends at 30 s. *)
Lemma X13_hold_time_after_opens_witness :
  holdTime (@afterOpens Wire.codec Sample.f0
              [Sample.peerOpen 90; Sample.peerOpen 30; Sample.peerOpen 90])
  = fold_right Z.min (holdTime Sample.f0)
      (map (fun m => openMessage.holdTime m * Second)
         [Sample.peerOpen 90; Sample.peerOpen 30; Sample.peerOpen 90]).
Proof.
  apply (@X13_hold_time_after_opens Wire.codec).
  intros m [<- | [<- | [<- | []]]]; reflexivity.
Defined.

(** ** A fresh FSM *)

Lemma Truncate_floor (d : Duration) :
  0 <= d -> Truncate d Second = Second * (d / Second).
Proof.
  intros Hd. unfold Truncate. change (Second <=? 0) with false. cbv iota.
  assert (HS : Second = 1000000000) by reflexivity.
  rewrite Z.rem_mod_nonneg by lia.
  pose proof (Z.div_mod d Second ltac:(lia)). lia.
Qed.

(** X14. [newFSM] starts in Idle with the configured hold time, and for a
    non-negative configured hold time (in nanoseconds, whole seconds or
    not) its keepalive period is the number of whole seconds in a third
    of it: three keepalive periods fit in the hold time, and less than
    three more seconds would not. *)
Theorem X14_newFSM_keepAlive (cfg : NeighborConfig) (la : Z) :
  0 <= HoldTime cfg ->
  s (newFSM cfg la) = IdleState
  /\ holdTime (newFSM cfg la) = HoldTime cfg
  /\ keepAliveTime (newFSM cfg la)
     = Second * (HoldTime cfg / (3 * Second))
  /\ 3 * keepAliveTime (newFSM cfg la) <= HoldTime cfg
       < 3 * keepAliveTime (newFSM cfg la) + 3 * Second.
Proof.
  intros Hh. cbn [newFSM s holdTime keepAliveTime].
  assert (HS : Second = 1000000000) by reflexivity.
  assert (Hka : Truncate (Z.quot (HoldTime cfg) 3) Second
                = Second * (HoldTime cfg / (3 * Second))).
  { rewrite Z.quot_div_nonneg by lia.
    rewrite Truncate_floor by (apply Z.div_pos; lia).
    now rewrite Z.div_div by lia. }
  rewrite Hka. repeat split.
  - pose proof (Z.mul_div_le (HoldTime cfg) (3 * Second) ltac:(lia)). lia.
  - pose proof (Z.mul_succ_div_gt (HoldTime cfg) (3 * Second) ltac:(lia)).
    lia.
Qed.

(** A hold time of 100.5 s gives a keepalive period of 33 s. *)
Lemma X14_newFSM_keepAlive_witness :
  s (newFSM {| Address := [10; 0; 0; 1]; ASN := 65001;
               HoldTime := 100500000000 |} 65000) = IdleState
  /\ holdTime (newFSM {| Address := [10; 0; 0; 1]; ASN := 65001;
                         HoldTime := 100500000000 |} 65000)
     = 100500000000
  /\ keepAliveTime (newFSM {| Address := [10; 0; 0; 1]; ASN := 65001;
                              HoldTime := 100500000000 |} 65000)
     = Second * (100500000000 / (3 * Second))
  /\ 3 * keepAliveTime (newFSM {| Address := [10; 0; 0; 1]; ASN := 65001;
                                  HoldTime := 100500000000 |} 65000)
     <= 100500000000
     < 3 * keepAliveTime (newFSM {| Address := [10; 0; 0; 1]; ASN := 65001;
                                    HoldTime := 100500000000 |} 65000)
       + 3 * Second.
Proof.
  apply (X14_newFSM_keepAlive
           {| Address := [10; 0; 0; 1]; ASN := 65001;
              HoldTime := 100500000000 |} 65000).
  cbn. lia.
Defined.


(** ** The OPEN exchange in OpenSent *)





(** ** Reasoning rules for [runs] *)

Lemma runs_ret {A} (a : A) (P : list effect -> Prop)
  (Q : A -> list effect -> Prop) :
  Q a [] -> runs (mret a) P Q.
Proof. intros HQ w. exists []. cbn. now rewrite app_nil_r. Qed.

Lemma runs_bind {A B} (m : M A) (k : A -> M B) (P : list effect -> Prop)
  (Q : B -> list effect -> Prop) :
  runs m P (fun a tr1 =>
              runs (k a) (fun tr2 => P (tr1 ++ tr2))
                (fun b tr2 => Q b (tr1 ++ tr2))) ->
  runs (mbind m k) P Q.
Proof.
  intros Hm w. unfold mbind. destruct (Hm w) as (tr1 & Htr1 & H1).
  destruct (m w) as [a w1|t w1|w1]; cbn [outWorld] in *;
    [|exists tr1; auto ..].
  destruct (H1 w1) as (tr2 & Htr2 & H2).
  exists (tr1 ++ tr2). rewrite Htr2, Htr1, app_assoc.
  split; [reflexivity | exact H2].
Qed.

Lemma runs_weaken {A} (m : M A) (P P' : list effect -> Prop)
  (Q Q' : A -> list effect -> Prop) :
  runs m P Q ->
  (forall tr, P tr -> P' tr) ->
  (forall a tr, Q a tr -> Q' a tr) ->
  runs m P' Q'.
Proof.
  intros Hm HP HQ w. destruct (Hm w) as (tr & Htr & H1).
  exists tr. split; [exact Htr|].
  destruct (m w); auto.
Qed.

Lemma runs_tell (e : effect) (P : list effect -> Prop)
  (Q : unit -> list effect -> Prop) :
  Q tt [e] -> runs (tell e) P Q.
Proof. intros HQ w. exists [e]. cbn. auto. Qed.

Lemma runs_next (P : list effect -> Prop)
  (Q : choice -> list effect -> Prop) :
  P [] -> (forall c, Q c []) -> runs next P Q.
Proof.
  intros HP HQ w. exists []. unfold next.
  destruct (schedule w); cbn; rewrite app_nil_r; auto.
Qed.

Lemma runs_getF (P : list effect -> Prop)
  (Q : standardFSM -> list effect -> Prop) :
  (forall f, Q f []) -> runs getF P Q.
Proof. intros HQ w. exists []. cbn. rewrite app_nil_r. auto. Qed.

Lemma runs_stuck {A} (P : list effect -> Prop)
  (Q : A -> list effect -> Prop) :
  P [] -> runs stuck P Q.
Proof. intros HP w. exists []. cbn. rewrite app_nil_r. auto. Qed.

Lemma runs_panic {A} (t : string) (P : list effect -> Prop)
  (Q : A -> list effect -> Prop) :
  P [] -> runs (panic t) P Q.
Proof. intros HP w. exists []. cbn. rewrite app_nil_r. auto. Qed.

Lemma runs_validateOpenM `{Codec} (open : openMessage.t)
  (P : list effect -> Prop)
  (Q : option errWithNotification -> list effect -> Prop) :
  P [] -> (forall r, Q r []) -> runs (validateOpenM open) P Q.
Proof.
  intros HP HQ w. exists [].
  unfold validateOpenM, mbind, getF, putF, mret, panic.
  destruct (validateOpen (fsm w) open) as [f' [r|t]];
    cbn; rewrite app_nil_r; auto.
Qed.

Ltac runs_step :=
  cbv beta;
  first
    [ apply runs_validateOpenM; [|intros ?]
    | apply runs_bind
    | apply runs_ret
    | apply runs_tell
    | apply runs_next; [|intros ?]
    | apply runs_getF; intros ?
    | apply runs_stuck
    | apply runs_panic
    | match goal with
      | |- runs (match ?x with _ => _ end) _ _ => destruct x
      end ].

Ltac trace_leaf :=
  unfold handlerRunning, handlerReturned;
  cbn; split; solve [reflexivity | discriminate].

Lemma runs_connect `{Codec} :
  runs connect (handlerRunning ConnectState)
    (handlerReturned ConnectState).
Proof.
  unfold connect, sendOpen, emitOr, cleanupConn, connWrite.
  repeat runs_step; trace_leaf.
Qed.

Lemma runs_idle `{Codec} :
  runs idle (handlerRunning IdleState) (handlerReturned IdleState).
Proof. unfold idle. repeat runs_step; trace_leaf. Qed.

Lemma runs_active `{Codec} :
  runs active (handlerRunning ActiveState) (handlerReturned ActiveState).
Proof. unfold active. repeat runs_step; trace_leaf. Qed.

Lemma runs_openSent `{Codec} :
  runs openSent (handlerRunning OpenSentState)
    (handlerReturned OpenSentState).
Proof. unfold openSent. unfold_helpers. repeat runs_step; trace_leaf. Qed.

Lemma runs_openConfirm `{Codec} :
  runs openConfirm (handlerRunning OpenConfirmState)
    (handlerReturned OpenConfirmState).
Proof.
  unfold openConfirm. unfold_helpers. repeat runs_step; trace_leaf.
Qed.

Lemma runs_establishedLoop `{Codec} (fuel : nat) :
  runs (establishedLoop fuel) (handlerRunning EstablishedState)
    (handlerReturned EstablishedState).
Proof.
  induction fuel as [|fuel IH]; [apply runs_stuck; trace_leaf|].
  cbn [establishedLoop]. unfold_helpers.
  repeat runs_step;
    try (eapply runs_weaken; [exact IH | |];
         unfold handlerRunning, handlerReturned; cbn; tauto);
    trace_leaf.
Qed.

Lemma runs_handler `{Codec} (st : FSMState) :
  st <> DisabledState ->
  runs (handler st) (handlerRunning st) (handlerReturned st).
Proof.
  destruct st; cbn [handler]; intros Hst;
    [ contradiction | apply runs_idle | apply runs_connect
    | apply runs_active | apply runs_openSent | apply runs_openConfirm
    | intros w; apply runs_establishedLoop ].
Qed.

(** ** The trace of the driver *)

Lemma connAfter_app (tr1 tr2 : list effect) (n : Z) :
  connAfter n (tr1 ++ tr2)
  = match connAfter n tr1 with
    | Some m => connAfter m tr2
    | None => None
    end.
Proof.
  revert n. induction tr1 as [|e tr1 IH]; intros n; [reflexivity|].
  destruct e; cbn [app connAfter]; try apply IH;
    destruct (_ =? _); auto.
Qed.

Lemma transitions_app (tr1 tr2 : list effect) :
  transitions (tr1 ++ tr2) = transitions tr1 ++ transitions tr2.
Proof.
  induction tr1 as [|e tr1 IH]; [reflexivity|].
  destruct e as [ev| | | | | | | | | | | ]; cbn [app transitions]; auto.
  destruct ev; cbn [app]; auto. now rewrite IH.
Qed.

(** The trace invariant of [loop], for every fuel. *)
Lemma loopN_trace `{Codec} (fuel : nat) (w : world) :
  exists added,
    trace (outWorld (loopN fuel w)) = trace w ++ added
    /\ loopRunning (s (fsm w)) added.
Proof.
  revert w. induction fuel as [|fuel IH]; intros w.
  { exists []. cbn. rewrite app_nil_r. repeat split.
    destruct (live _); discriminate. }
  cbn [loopN]. unfold mbind at 1. unfold getF at 1.
  destruct (s (fsm w)) eqn:Hs.
  { exists [DisableEcho]. cbn. repeat split. discriminate. }
  all: cbn [FSMState_eqb negb].
  all: unfold mbind at 1; unfold next at 1.
  all: destruct (schedule w) as [|c rest] eqn:Hsched;
    [exists []; cbn; rewrite app_nil_r; repeat split; discriminate|].
  all: destruct c;
    try (exists []; cbn; rewrite app_nil_r; repeat split; discriminate).
  all: try (exists [DisableEcho]; cbn; repeat split; discriminate).
  all: unfold mbind at 1; unfold tell at 1; cbn [fsm schedule trace].
  all: unfold mbind at 1.
  all: match goal with
       | |- context [handler ?st ?w1] =>
           pose proof (run_handler st ltac:(discriminate) w1) as Hh;
           destruct (runs_handler st ltac:(discriminate) w1)
             as (tr1 & Htr1 & Hpost);
           destruct (handler st w1) as [st' w2|t w2|w2]
       end.
  all: cbn [outWorld fsm schedule trace] in *.
  (* the handler panicked, or is blocked *)
  all: try (match type of Htr1 with
            | _ = (_ ++ [?e]) ++ _ => exists (e :: tr1)
            end;
            split; [rewrite Htr1, <- app_assoc; reflexivity|];
            destruct Hpost as [Hc Ht]; split;
            [exact Hc | cbn [transitions]; rewrite Ht; repeat split;
                        discriminate]).
  (* the handler returned *)
  all: destruct Hh as (_ & _ & _ & _ & (_ & _ & Hs2 & _) & Hedge & _).
  all: unfold mbind at 1; unfold transitionM, mbind at 1, getF;
    unfold transitionAndPanicOnErr.
  all: rewrite transition_allowed by (rewrite Hs2, Hs; exact Hedge).
  all: unfold putF; cbn [fsm schedule trace].
  all: match goal with
       | |- context [loopN ?n ?w3] =>
           destruct (IH w3) as (tr3 & Htr3 & Hc3 & Ht3)
       end.
  all: cbn [fsm schedule trace s set_s] in *.
  all: match type of Htr1 with
       | _ = (_ ++ [?e]) ++ _ => exists (e :: tr1 ++ tr3)
       end.
  all: split;
    [rewrite Htr3, Htr1; cbn [app]; rewrite <- ?app_assoc; reflexivity|].
  all: destruct Hpost as [Hc1 Ht1].
  all: split;
    [cbn [connAfter]; rewrite connAfter_app, Hc1; exact Hc3|].
  all: cbn [transitions]; rewrite transitions_app, Ht1; cbn [app].
  all: split; [reflexivity|]; split; [discriminate|].
  all: destruct (transitions tr3) as [|x r]; [exact I|].
  all: destruct Ht3 as (-> & Hnd & Hwalk).
  all: cbn [walk]; auto.
Qed.

(** X17. At no point of a run, finished or not, does the driver write on
    a connection it does not hold, tear down a connection it does not
    hold, or install a connection over another: read from the start of a
    fresh FSM, every effect on the connection finds it in the state it
    needs. *)
Theorem X17_driver_uses_connection_safely `{Codec} (cfg : NeighborConfig)
  (la : Z) (sched : list choice) :
  connAfter 0
    (trace (outWorld (loop {| fsm := newFSM cfg la; schedule := sched;
                              trace := [] |})))
  <> None.
Proof.
  unfold loop.
  match goal with
  | |- context [loopN ?n ?w] =>
      destruct (loopN_trace n w) as (added & -> & Hc & _)
  end.
  exact Hc.
Qed.


(** ** The reader goroutine: what it sends *)

Lemma forward_spec (mfb : list Z -> list Message + error)
  (msgs : list Message) (sched : list readerChoice)
  (tr : list readerEffect) :
  match forward msgs sched tr with
  | ReaderGoesOn s' t' =>
      t' = tr ++ map SentMsg msgs
      /\ flat_map (framed mfb) sched = flat_map (framed mfb) s'
  | ReaderReturned _ t' =>
      exists sent rest, msgs = sent ++ rest /\ t' = tr ++ map SentMsg sent
  | ReaderBlocked _ t' =>
      exists sent rest, msgs = sent ++ rest /\ t' = tr ++ map SentMsg sent
  end.
Proof.
  revert sched tr. induction msgs as [|m msgs IH]; intros sched tr.
  { cbn. now rewrite app_nil_r. }
  cbn [forward].
  destruct sched as [|c sched];
    [exists [], (m :: msgs); cbn; now rewrite app_nil_r|].
  destruct c;
    try (exists [], (m :: msgs); cbn; now rewrite app_nil_r).
  specialize (IH sched (tr ++ [SentMsg m])).
  destruct (forward msgs sched (tr ++ [SentMsg m])) as [s' t'|s' t'|s' t'].
  - destruct IH as (sent & rest & -> & ->).
    exists (m :: sent), rest. cbn. now rewrite <- app_assoc.
  - destruct IH as [-> Hf]. cbn. now rewrite <- app_assoc.
  - destruct IH as (sent & rest & -> & ->).
    exists (m :: sent), rest. cbn. now rewrite <- app_assoc.
Qed.

Lemma reportErr_spec (e : error) (sched : list readerChoice)
  (tr : list readerEffect) :
  exists errs,
    readerTrace (reportErr e sched tr) = tr ++ errs
    /\ (errs = []
        \/ exists e', errs = [SentErr e']
                      /\ returned (reportErr e sched tr) = true)
    /\ (forall s' t', reportErr e sched tr <> ReaderGoesOn s' t').
Proof.
  unfold reportErr.
  destruct sched as [|c sched];
    [exists []; cbn; rewrite app_nil_r; repeat split; auto; discriminate|].
  destruct c;
    try (exists []; cbn; rewrite app_nil_r; repeat split; auto;
         discriminate).
  exists [SentErr e]. cbn. repeat split; eauto. discriminate.
Qed.

Ltac nothing_sent mfb sched :=
  exists [], (flat_map (framed mfb) sched), [];
  split; [cbn; now rewrite app_nil_r|];
  split; [reflexivity|];
  split; [now left | discriminate].

Lemma readLoop_spec (mfb : list Z -> list Message + error) (fuel : nat)
  (sched : list readerChoice) (tr : list readerEffect) :
  exists sent rest errs,
    readerTrace (readLoop mfb fuel sched tr)
    = tr ++ map SentMsg sent ++ errs
    /\ flat_map (framed mfb) sched = sent ++ rest
    /\ (errs = []
        \/ exists e, errs = [SentErr e]
                     /\ returned (readLoop mfb fuel sched tr) = true)
    /\ (forall s' t', readLoop mfb fuel sched tr <> ReaderGoesOn s' t').
Proof.
  revert sched tr. induction fuel as [|fuel IH]; intros sched tr.
  { exists [], (flat_map (framed mfb) sched), []. cbn.
    rewrite app_nil_r. repeat split; auto. discriminate. }
  cbn [readLoop].
  destruct sched as [|c sched]; [nothing_sent mfb (@nil readerChoice)|].
  destruct c as [| |b|e|];
    try (match goal with
         | |- context [flat_map _ ?l] => nothing_sent mfb l
         end).
  (* the channel is open: conn.Read *)
  destruct sched as [|c sched]; [nothing_sent mfb [NotClosed]|].
  destruct c as [| |b|e|];
    try (match goal with
         | |- context [flat_map _ ?l] => nothing_sent mfb l
         end).
  - cbn [flat_map framed app].
    destruct (mfb b) as [msgs|e] eqn:Hb.
    * pose proof (forward_spec mfb msgs sched tr) as Hf.
      destruct (forward msgs sched tr) as [s' t'|s' t'|s' t'].
      -- destruct Hf as (sent & rest & -> & ->).
         exists sent, (rest ++ flat_map (framed mfb) sched), [].
         cbn. rewrite app_nil_r, <- app_assoc.
         repeat split; auto. discriminate.
      -- destruct Hf as [-> Hfr].
         destruct (IH s' (tr ++ map SentMsg msgs))
           as (sent & rest & errs & Htr & Hfl & Herr & Hgo).
         exists (msgs ++ sent), rest, errs.
         rewrite Htr, Hfr, Hfl, map_app, <- !app_assoc.
         repeat split; auto.
      -- destruct Hf as (sent & rest & -> & ->).
         exists sent, (rest ++ flat_map (framed mfb) sched), [].
         cbn. rewrite app_nil_r, <- app_assoc.
         repeat split; auto. discriminate.
    * destruct (reportErr_spec e sched tr) as (errs & Htr & Herr & Hgo).
      exists [], (flat_map (framed mfb) sched), errs. cbn.
      repeat split; auto.
  - destruct (reportErr_spec e sched tr) as (errs & Htr & Herr & Hgo).
    exists [], (flat_map (framed mfb) sched), errs. cbn.
    repeat split; auto.
Qed.

Lemma sentMsgs_app (tr1 tr2 : list readerEffect) :
  sentMsgs (tr1 ++ tr2) = sentMsgs tr1 ++ sentMsgs tr2.
Proof. apply flat_map_app. Qed.

Lemma sentMsgs_map (msgs : list Message) :
  sentMsgs (map SentMsg msgs) = msgs.
Proof.
  induction msgs as [|m msgs IH]; [reflexivity|].
  cbn. unfold sentMsgs in IH. now rewrite IH.
Qed.

(** X19. The reader forwards to f.msgCh the messages the framer finds in
    the chunks it reads, in the order read and framed, each once and
    none skipped, up to the point where it stops: what it sent is a
    prefix of the messages framed from the successful reads. *)
Theorem X19_reader_forwards_in_order
  (mfb : list Z -> list Message + error) (sched : list readerChoice) :
  exists rest,
    flat_map (framed mfb) sched
    = sentMsgs (readerTrace (read mfb sched)) ++ rest.
Proof.
  unfold read.
  destruct (readLoop_spec mfb (S (List.length sched)) sched [])
    as (sent & rest & errs & Htr & Hfl & Herr & _).
  exists rest. rewrite Hfl. f_equal.
  assert (Hs : sentMsgs
                 (readerTrace (readLoop mfb (S (List.length sched)) sched []))
               = sent).
  { rewrite Htr. cbn [app]. rewrite sentMsgs_app, sentMsgs_map.
    destruct Herr as [-> | (e & -> & _)]; cbn; now rewrite app_nil_r. }
  destruct (readLoop mfb (S (List.length sched)) sched [])
    as [s' t'|s' t'|s' t']; cbn [readerTrace] in *; try (now rewrite Hs).
  rewrite sentMsgs_app, Hs. cbn. now rewrite app_nil_r.
Qed.

(** X20. A run of the reader sends messages, then at most one error,
    and, exactly when it returns, closes f.readerClosed as its last act:
    it reports no second error, sends nothing after an error, and never
    returns without acknowledging. *)
Theorem X20_reader_trace_shape
  (mfb : list Z -> list Message + error) (sched : list readerChoice) :
  exists sent,
    (returned (read mfb sched) = false
     /\ readerTrace (read mfb sched) = map SentMsg sent)
    \/ (returned (read mfb sched) = true
        /\ (readerTrace (read mfb sched)
            = map SentMsg sent ++ [ReaderClosed]
            \/ exists e,
                 readerTrace (read mfb sched)
                 = map SentMsg sent ++ [SentErr e; ReaderClosed])).
Proof.
  unfold read.
  destruct (readLoop_spec mfb (S (List.length sched)) sched [])
    as (sent & rest & errs & Htr & _ & Herr & Hgo).
  exists sent.
  destruct (readLoop mfb (S (List.length sched)) sched [])
    as [s' t'|s' t'|s' t']; cbn [readerTrace returned app] in *.
  - right. split; [reflexivity|]. subst t'.
    destruct Herr as [-> | (e & -> & _)]; rewrite <- app_assoc; cbn;
      eauto.
  - exfalso. now apply (Hgo s' t').
  - left. split; [reflexivity|]. subst t'.
    destruct Herr as [-> | (e & _ & He)]; [now rewrite app_nil_r|].
    discriminate He.
Qed.

(** ** State names *)

(** X21. The names [String] gives to the seven states are pairwise
    different, and none is the fallback "unknown state": a state can be
    read back from its name in a log. *)
Theorem X21_state_names_distinct (a b : FSMState) :
  (FSMState_String a = FSMState_String b -> a = b)
  /\ FSMState_String a <> "unknown state"%string.
Proof.
  split.
  - destruct a, b; cbn; intros Heq; try reflexivity; discriminate Heq.
  - destruct a; discriminate.
Qed.

(** ** The timers *)

Ltac timers_leaf :=
  solve [unfold handlerTimers; cbn;
         split; eexists; (split; [reflexivity|]);
         first [lia
               | intros Hd;
                 first [lia | exfalso; apply Hd; reflexivity]]].

Lemma timers_connect `{Codec} :
  run connect (handlerTimers ConnectState).
Proof.
  unfold connect, sendOpen, emitOr, cleanupConn, connWrite.
  repeat run_step; timers_leaf.
Qed.

Lemma timers_active `{Codec} : run active (handlerTimers ActiveState).
Proof. unfold active. repeat run_step; timers_leaf. Qed.

Lemma timers_openSent `{Codec} : run openSent (handlerTimers OpenSentState).
Proof. unfold openSent. unfold_helpers. repeat run_step; timers_leaf. Qed.

Lemma timers_openConfirm `{Codec} :
  run openConfirm (handlerTimers OpenConfirmState).
Proof. unfold openConfirm. unfold_helpers. repeat run_step; timers_leaf. Qed.

Lemma timers_idle `{Codec} : run idle (handlerTimers IdleState).
Proof. unfold idle. repeat run_step; timers_leaf. Qed.

Lemma timers_establishedLoop `{Codec} (fuel : nat) :
  run (establishedLoop fuel) (handlerTimers EstablishedState).
Proof.
  induction fuel as [|fuel IH]; [apply run_stuck|].
  cbn [establishedLoop]. unfold_helpers.
  repeat run_step;
    try (eapply run_weaken; [exact IH|];
         intros st' tr u ((n & Hn & Hbal) & (k & Hk & Hr));
         split; cbn; eauto);
    timers_leaf.
Qed.

Lemma timers_handler `{Codec} (st : FSMState) :
  st <> DisabledState -> run (handler st) (handlerTimers st).
Proof.
  destruct st; cbn [handler]; intros Hst;
    [ contradiction | apply timers_idle | apply timers_connect
    | apply timers_active | apply timers_openSent | apply timers_openConfirm
    | intros w; apply timers_establishedLoop ].
Qed.

(** X22. Entered with the hold timer pending exactly in OpenConfirm and
    Established and the connect retry timer idle, a handler resets each
    timer only when it is idle and drains it only when it is pending; a
    timer whose expiry a select received is not drained afterwards; and
    on return the hold timer is pending exactly if the state returned is
    OpenConfirm or Established, the connect retry timer idle unless the
    state returned is Disabled. *)
Theorem X22_handler_timer_discipline `{Codec} (st st' : FSMState)
  (w w' : world) :
  st <> DisabledState ->
  handler st w = Done st' w' ->
  exists added used,
    trace w' = trace w ++ added
    /\ schedule w = used ++ schedule w'
    /\ (exists n, holdAfter (holdArmed st) added = Some n
                  /\ n - holdFired used = holdArmed st')
    /\ (exists k, retryAfter 0 added = Some k
                  /\ (st' <> DisabledState -> k - retryFired used = 0)).
Proof.
  intros Hst Hrun. pose proof (timers_handler st Hst w) as Hh.
  rewrite Hrun in Hh.
  destruct Hh as (tr & u & Htr & Hu & _ & Hhold & Hretry).
  exists tr, u. auto.
Qed.

(** Established, the hold timer expires: the timer is not drained, and
    is idle when the handler returns Idle. *)
Lemma X22_handler_timer_discipline_witness :
  exists added used,
    [ConnWrite
       (Wire.notificationBytes
          {| Code := NotifErrCodeHoldTimerExpired;
             Subcode := NotifErrSubcodeZero; Data := [] |});
     Emit (EventNeighborHoldTimerExpired Sample.cfg); CleanupConn]
    = [] ++ added
    /\ [HoldTimerFired; WriteOk; EventSent] = used ++ []
    /\ (exists n, holdAfter (holdArmed EstablishedState) added = Some n
                  /\ n - holdFired used = holdArmed IdleState)
    /\ (exists k, retryAfter 0 added = Some k
                  /\ (IdleState <> DisabledState ->
                      k - retryFired used = 0)).
Proof.
  refine (@X22_handler_timer_discipline Wire.codec EstablishedState
            IdleState
            (Sample.start (set_s Sample.f0 EstablishedState)
               [HoldTimerFired; WriteOk; EventSent])
            {| fsm := set_s Sample.f0 EstablishedState; schedule := [];
               trace := _ |} _ _).
  - discriminate.
  - reflexivity.
Defined.

(** ** The fuel of the two loops is enough *)

Lemma mbind_ext_sched {A B} (m : M A) (k1 k2 : A -> M B) (L : nat)
  (w : world) :
  run m (fun _ _ _ => True) ->
  (List.length (schedule w) <= L)%nat ->
  (forall a w', (List.length (schedule w') <= L)%nat -> k1 a w' = k2 a w') ->
  mbind m k1 w = mbind m k2 w.
Proof.
  intros Hm HL Hk. unfold mbind. specialize (Hm w).
  destruct (m w) as [a w'|t w'|w']; try reflexivity.
  destruct Hm as (tr & u & _ & Hu & _). apply Hk.
  rewrite Hu, length_app in HL. lia.
Qed.

Lemma mbind_next_ext {B} (k1 k2 : choice -> M B) (w : world) :
  (forall c w',
     (List.length (schedule w') < List.length (schedule w))%nat ->
     k1 c w' = k2 c w') ->
  mbind next k1 w = mbind next k2 w.
Proof.
  intros Hk. unfold mbind, next.
  destruct (schedule w) as [|c rest] eqn:Hs; [reflexivity|].
  apply Hk. cbn. lia.
Qed.

Ltac run_any := repeat run_step; exact I.

Ltac fuel_step L :=
  first
    [ reflexivity
    | apply (mbind_ext_sched _ _ _ L); [run_any | lia | intros ? ? ?]
    | match goal with
      | |- (match ?x with _ => _ end) _ = (match ?x with _ => _ end) _ =>
          destruct x
      end ].

Lemma establishedLoop_fuel `{Codec} (n m : nat) (w : world) :
  (List.length (schedule w) < n)%nat ->
  (List.length (schedule w) < m)%nat ->
  establishedLoop n w = establishedLoop m w.
Proof.
  revert m w. induction n as [|n IH]; intros m w Hn Hm; [lia|].
  destruct m as [|m]; [lia|].
  cbn [establishedLoop].
  apply mbind_next_ext. intros c w' Hw'.
  unfold_helpers.
  destruct c; try reflexivity.
  all: repeat (fuel_step (List.length (schedule w'))).
  all: apply IH; lia.
Qed.

Lemma mbind_transitionM_ext {B} (st : FSMState) (k1 k2 : unit -> M B)
  (L : nat) (w : world) :
  (List.length (schedule w) <= L)%nat ->
  (forall a w', (List.length (schedule w') <= L)%nat -> k1 a w' = k2 a w') ->
  mbind (transitionM st) k1 w = mbind (transitionM st) k2 w.
Proof.
  intros HL Hk. unfold transitionM, mbind, getF, putF, panic.
  destruct (transitionAndPanicOnErr (fsm w) st); [|reflexivity].
  apply Hk. exact HL.
Qed.

Lemma loopN_fuel `{Codec} (n m : nat) (w : world) :
  (List.length (schedule w) < n)%nat ->
  (List.length (schedule w) < m)%nat ->
  loopN n w = loopN m w.
Proof.
  revert m w. induction n as [|n IH]; intros m w Hn Hm; [lia|].
  destruct m as [|m]; [lia|].
  cbn [loopN].
  match goal with
  | |- mbind getF ?k1 w = mbind getF ?k2 w =>
      change (k1 (fsm w) w = k2 (fsm w) w)
  end.
  cbv beta zeta.
  destruct (s (fsm w)) eqn:Hs; cbn [FSMState_eqb negb]; [reflexivity|..].
  all: apply mbind_next_ext; intros c w' Hw'.
  all: destruct c; try reflexivity.
  all: apply (mbind_ext_sched _ _ _ (List.length (schedule w')));
    [run_any | lia | intros ? w1 H1].
  all: apply (mbind_ext_sched _ _ _ (List.length (schedule w')));
    [eapply run_weaken;
       [apply run_handler; discriminate | intros; exact I]
    | lia | intros st' w2 H2].
  all: apply (mbind_transitionM_ext _ _ _ (List.length (schedule w')));
    [lia | intros ? w3 H3].
  all: apply IH; lia.
Qed.

(** The outcome of [loop] is that of [loopN] with any larger fuel, and
    likewise for [established]: neither is ever blocked for lack of
    fuel. *)
Lemma loop_fuel `{Codec} (n : nat) (w : world) :
  (List.length (schedule w) < n)%nat -> loopN n w = loop w.
Proof. intros Hn. unfold loop. apply loopN_fuel; lia. Qed.

Lemma established_fuel `{Codec} (n : nat) (w : world) :
  (List.length (schedule w) < n)%nat ->
  establishedLoop n w = established w.
Proof. intros Hn. unfold established. apply establishedLoop_fuel; lia. Qed.
